(** * music_essentials: intervals and chords

    A shallow embedding of [music_essentials/interval.py] and
    [music_essentials/chord.py], with the properties of their
    specification stated and proved over it.

    Python values are modelled as follows.
    - [int] is [Z]; [str] is [string], read as ASCII text.
    - An exception is a value of [exn]; a call that may raise returns a
      [result].  The specification's single error kind, InvalidArgument,
      covers both [TypeError] and [ValueError].
    - The builtins [str] and [int] are Python 3's, on integers and on
      ASCII strings. *)

From Stdlib Require Import ZArith String Ascii List Lia Bool.
From Stdlib Require Import Decimal DecimalString DecimalPos DecimalZ.
From Stdlib Require Import Sorted Permutation.
From Equations Require Import Equations.
Import ListNotations.

Local Open Scope string_scope.
Local Open Scope Z_scope.

(** ** Exceptions and results *)

Inductive exn : Type :=
| TypeError (msg : string)
| ValueError (msg : string)
| IndexError (msg : string).

Inductive result (A : Type) : Type :=
| Ok (a : A)
| Raise (e : exn).

Arguments Ok {A} a.
Arguments Raise {A} e.

Definition bind {A B : Type} (r : result A) (k : A -> result B) : result B :=
  match r with
  | Ok a => k a
  | Raise e => Raise e
  end.

Notation "x <- r ;; k" := (bind r (fun x => k))
  (at level 61, r at next level, right associativity).

(** The error kind of the specification: a [TypeError] or a [ValueError]. *)
Definition is_invalid_argument {A : Type} (r : result A) : bool :=
  match r with
  | Raise (TypeError _) | Raise (ValueError _) => true
  | _ => false
  end.

Definition succeeds {A : Type} (r : result A) : bool :=
  match r with
  | Ok _ => true
  | Raise _ => false
  end.

(** ** Python builtins *)

Module Py.

(** The values an interval size is given as: an [int] or a [str]. *)
Inductive val : Type :=
| Int (z : Z)
| Str (s : string).

(** [str(z)] for an integer: decimal digits, [-] before a negative one. *)
Definition str_of_int (z : Z) : string :=
  NilZero.string_of_int (Z.to_int z).

Definition str (v : val) : string :=
  match v with
  | Int z => str_of_int z
  | Str s => s
  end.

(** Whitespace skipped by [int] around a number. *)
Definition is_space (c : ascii) : bool :=
  let n := nat_of_ascii c in
  ((9 <=? n)%nat && (n <=? 13)%nat) || (n =? 32)%nat.

Fixpoint lstrip (s : string) : string :=
  match s with
  | String c r => if is_space c then lstrip r else s
  | EmptyString => EmptyString
  end.

Fixpoint all_space (s : string) : bool :=
  match s with
  | String c r => is_space c && all_space r
  | EmptyString => true
  end.

Definition digit_of (c : ascii) : option (uint -> uint) :=
  match c with
  | "0"%char => Some D0
  | "1"%char => Some D1
  | "2"%char => Some D2
  | "3"%char => Some D3
  | "4"%char => Some D4
  | "5"%char => Some D5
  | "6"%char => Some D6
  | "7"%char => Some D7
  | "8"%char => Some D8
  | "9"%char => Some D9
  | _ => None
  end.

(** The digits of a base-10 literal: one underscore may separate two
    digits, and only whitespace may follow the last digit. *)
Fixpoint int_digits (s : string) (after_digit : bool) : option uint :=
  match s with
  | EmptyString => if after_digit then Some Nil else None
  | String c r =>
      if is_space c then
        if after_digit && all_space r then Some Nil else None
      else if Ascii.eqb c "_" then
        if after_digit then int_digits r false else None
      else
        match digit_of c with
        | Some d => option_map d (int_digits r true)
        | None => None
        end
  end.

(** [int(s)] for a string: [None] stands for the [ValueError] it raises. *)
Definition int_of_str (s : string) : option Z :=
  match lstrip s with
  | String "-" r => option_map (fun u => - Z.of_uint u) (int_digits r false)
  | String "+" r => option_map Z.of_uint (int_digits r false)
  | r => option_map Z.of_uint (int_digits r false)
  end.

Definition int (v : val) : option Z :=
  match v with
  | Int z => Some z
  | Str s => int_of_str s
  end.

(** [c in s] for a one-character string [c]. *)
Fixpoint contains (c : ascii) (s : string) : bool :=
  match s with
  | String d r => Ascii.eqb c d || contains c r
  | EmptyString => false
  end.

(** [x in t] for a tuple of strings. *)
Definition str_in (x : string) (t : list string) : bool :=
  existsb (String.eqb x) t.

(** [s.startswith(p)]. *)
Definition startswith (s p : string) : bool := prefix p s.

(** [s.replace(old, '')] for a non-empty [old]: every occurrence of [old],
    found from left to right and never overlapping, is removed.  [skip]
    counts the characters of a match still to be dropped. *)
Fixpoint remove_from (old s : string) (skip : nat) : string :=
  match s with
  | EmptyString => EmptyString
  | String c r =>
      match skip with
      | S k => remove_from old r k
      | O =>
          if prefix old s then remove_from old r (String.length old - 1)
          else String c (remove_from old r 0)
      end
  end.

Definition replace_with_empty (s old : string) : string :=
  remove_from old s 0.

(** [s[:-1]]: the string without its last character; [''] stays ['']. *)
Fixpoint drop_last (s : string) : string :=
  match s with
  | EmptyString => EmptyString
  | String c EmptyString => EmptyString
  | String c r => String c (drop_last r)
  end.

(** [l[i]] for a list: a negative index counts from the end. *)
Definition getitem {A : Type} (l : list A) (i : Z) : result A :=
  let n := Z.of_nat (List.length l) in
  let j := if i <? 0 then i + n else i in
  if (0 <=? j) && (j <? n) then
    match nth_error l (Z.to_nat j) with
    | Some a => Ok a
    | None => Raise (IndexError "list index out of range")
    end
  else Raise (IndexError "list index out of range").

(** [l.insert(i, x)] for [0 <= i]. *)
Definition insert {A : Type} (l : list A) (i : nat) (x : A) : list A :=
  firstn i l ++ x :: skipn i l.

(** [d[k]] and [k in d.keys()] for a dict written as its items. *)
Fixpoint dict_get {A : Type} (d : list (string * A)) (k : string) : option A :=
  match d with
  | [] => None
  | (k', a) :: r => if String.eqb k k' then Some a else dict_get r k
  end.

End Py.

(** ** interval.py *)

Module Interval.

Definition NAMED_INTERVAL_TYPES : list string :=
  ["M"; "m"; "P"; "dim"; "aug"].

Definition VALID_INTERVAL_TYPES : list string :=
  ["dim1"; "P1"; "aug1"; "dim2"; "m2"; "aug2"; "M2"; "dim3";
   "m3"; "M3"; "aug3"; "dim4"; "P4"; "aug4"; "dim5"; "P5"; "aug5"; "dim6";
   "m6"; "M6"; "aug6"; "dim7"; "m7"; "M7"; "aug7"].

(** An interval object: its two attributes. *)
Record t : Type := mk { interval_type : string; size : Z }.

(** [while (base_size >= 8): base_size -= 7]. *)
Equations? while_base_size (base_size : Z) : Z by wf (Z.to_nat base_size) lt :=
  while_base_size base_size with Z_ge_dec base_size 8 := {
    | left _ := while_base_size (base_size - 7);
    | right _ := base_size }.
Proof. lia. Qed.

(** The base size computed on the compound branch, [int(size) >= 8]. *)
Definition compound_base_size (n : Z) : Z := while_base_size (n - 7).

(** [Interval(interval_type, size)].  The test that [interval_type] is a
    string is its type here. *)
Definition __init__ (interval_type : string) (size : Py.val) : result t :=
  if negb (Py.str_in interval_type NAMED_INTERVAL_TYPES) then
    Raise (ValueError ("Unsupported interval type specified: " ++ interval_type))
  else
    match Py.int size with
    | None =>
        Raise (TypeError ("Expected integer for interval distance, got: " ++ Py.str size))
    | Some n =>
        if Py.contains "." (Py.str size) then
          Raise (TypeError ("Expected integer for interval distance, got: " ++ Py.str size))
        else if n <=? 0 then
          Raise (ValueError ("Expected interval distance to be positive, got: " ++ Py.str size))
        else
          let interval_string :=
            if n >=? 8 then interval_type ++ Py.str_of_int (compound_base_size n)
            else interval_type ++ Py.str size in
          if negb (Py.str_in interval_string VALID_INTERVAL_TYPES) then
            Raise (ValueError ("Impossible interval type specified: "
                               ++ interval_type ++ Py.str size))
          else Ok (mk interval_type n)
    end.

(** The loop of [from_interval_string] over the named types still to try. *)
Fixpoint from_interval_string_loop (types : list string) (interval_string : string)
  : result t :=
  match types with
  | [] => Raise (ValueError ("Invalid interval string: " ++ interval_string))
  | i :: rest =>
      if Py.startswith interval_string i then
        __init__ i (Py.Str (Py.replace_with_empty interval_string i))
      else from_interval_string_loop rest interval_string
  end.

Definition from_interval_string (interval_string : string) : result t :=
  from_interval_string_loop NAMED_INTERVAL_TYPES interval_string.

Definition __str__ (self : t) : string :=
  interval_type self ++ Py.str_of_int (size self).

(** The module-level constants, evaluated when interval.py is loaded. *)
Definition _TONE : result t := from_interval_string "M2".
Definition _SEMITONE : result t := from_interval_string "m2".
Definition _TONE_AND_HALF : result t := from_interval_string "aug2".

End Interval.

(** ** note.py and scale.py: the collaborators of chord.py *)

Module Note.

(** Modelled from the spec: the Note class of note.py, which chord.py
    imports: a pitch letter, an octave and an accidental, built by
    [Note(pitch, octave, accidental)].  Its comparison operators are
    parameters of the chord operations below. *)
Record t : Type := mk { pitch : string; octave : Z; accidental : option string }.

End Note.

(** The objects a chord operation is handed: a Note, or something that
    is not a Note (a string or an integer). *)
Inductive obj : Type :=
| ONote (n : Note.t)
| OStr (s : string)
| OInt (z : Z).

Definition obj_str_other (o : obj) : string :=
  match o with
  | ONote _ => ""
  | OStr s => s
  | OInt z => Py.str_of_int z
  end.

(** ** chord.py *)

Module Chord.

Definition _MAJOR : list Z := [2; 4].
Definition _MINOR : list Z := [2; 4].

Definition _CHORD_PATTERNS : list (string * list Z) :=
  [("major", _MAJOR); ("maj", _MAJOR); ("minor", _MINOR); ("min", _MINOR)].

Definition _CHORD_NUM_SCALE_INDEX : list (string * Z) :=
  [("I", 0); ("II", 1); ("III", 2); ("IV", 3);
   ("V", 4); ("VI", 5); ("VII", 6); ("VIII", 7)].

(** A chord object: its one attribute. *)
Record t : Type := mk { notes : list Note.t }.

(** A call of [Scale.build_scale], as recorded by [build_chord]. *)
Definition scale_call : Type := (Note.t * string)%type.

Section Operations.

(** [Note.__lt__] and [Note.__ge__]. *)
Variables lt ge : Note.t -> Note.t -> bool.

(** [Scale.build_scale]. *)
Variable build_scale : Note.t -> string -> list Note.t.

Definition __init__ (root_note : obj) : result t :=
  match root_note with
  | ONote n => Ok (mk [n])
  | _ => Raise (TypeError ("Expected Note for root note, got '"
                           ++ obj_str_other root_note ++ "'"))
  end.

Definition root (self : t) : result Note.t :=
  Py.getitem (notes self) 0.

(** The [for i in range(len(self.notes) - 1)] loop of [add_note], over
    the indices still to visit; its result is the new [self.notes]. *)
Fixpoint add_note_loop (self_notes : list Note.t) (new_note : Note.t)
    (range : list nat) : result (list Note.t) :=
  match range with
  | [] => Ok (self_notes ++ [new_note])%list
  | i :: rest =>
      a <- Py.getitem self_notes (Z.of_nat i) ;;
      if ge new_note a then
        b <- Py.getitem self_notes (Z.of_nat i + 1) ;;
        if lt new_note b then Ok (Py.insert self_notes (i + 1) new_note)
        else add_note_loop self_notes new_note rest
      else add_note_loop self_notes new_note rest
  end.

(** [self.add_note(new_note)]: the chord after the call. *)
Definition add_note (self : t) (new_note : obj) : result t :=
  match new_note with
  | ONote n =>
      r <- root self ;;
      if lt n r then Ok (mk (Py.insert (notes self) 0 n))
      else
        l <- add_note_loop (notes self) n
               (seq 0 (List.length (notes self) - 1)) ;;
        Ok (mk l)
  | OStr s =>
      Raise (TypeError ("Expected Note for new note, got '" ++ (s ++ "'")))
  | OInt _ =>
      Raise (TypeError "unsupported operand type(s) for +: 'int' and 'str'")
  end.

(** One turn of the loop of [build_chord]: the index read in the scale
    and the octave difference, for [next_idx = root_idx + index_diff]. *)
Definition wrap_index (len_s next_idx : Z) : Z * Z :=
  if next_idx >? len_s - 1 then (next_idx - (len_s - 1), 0 + 1)
  else (next_idx, 0).

(** The [for index_diff in ...] loop of [build_chord]. *)
Fixpoint build_chord_loop (s : list Note.t) (root_idx : Z) (pattern : list Z)
    (cls : t) : result t :=
  match pattern with
  | [] => Ok cls
  | index_diff :: rest =>
      let '(next_idx, octave_diff) :=
        wrap_index (Z.of_nat (List.length s)) (root_idx + index_diff) in
      next_note <- Py.getitem s next_idx ;;
      cls' <- add_note cls
                (ONote (Note.mk (Note.pitch next_note)
                                (Note.octave next_note + octave_diff)
                                (Note.accidental next_note))) ;;
      build_chord_loop s root_idx rest cls'
  end.

(** [Chord.build_chord(tonic_key, chord_number, chord_type)]: the calls
    made to [Scale.build_scale], and the chord or the exception. *)
Definition build_chord (tonic_key : obj) (chord_number chord_type : string)
  : list scale_call * result t :=
  match tonic_key with
  | ONote tonic =>
      match Py.dict_get _CHORD_NUM_SCALE_INDEX chord_number with
      | None => ([], Raise (ValueError ("Unsupported chord number: " ++ chord_number)))
      | Some root_idx =>
          match Py.dict_get _CHORD_PATTERNS chord_type with
          | None => ([], Raise (ValueError ("Unsupported chord type: " ++ chord_type)))
          | Some pattern =>
              let s := build_scale tonic chord_type in
              ([(tonic, chord_type)],
               r <- Py.getitem s root_idx ;;
               cls <- __init__ (ONote r) ;;
               build_chord_loop s root_idx pattern cls)
          end
      end
  | _ => ([], Raise (TypeError ("Expected Note for tonic key, got '"
                                ++ obj_str_other tonic_key ++ "'")))
  end.

End Operations.

Section Formatting.

(** [Note.__str__]. *)
Variable note_str : Note.t -> string.

(** [str(chord)]: every note followed by [+], then the last character
    cut off. *)
Definition __str__ (self : t) : string :=
  Py.drop_last
    (fold_left (fun out n => out ++ (note_str n ++ "+")) (notes self) "").

End Formatting.

End Chord.

(** ** A sample collaborator: C major, ordered by semitone *)

Module Sample.

Definition letter_semitones (p : string) : Z :=
  if String.eqb p "C" then 0 else if String.eqb p "D" then 2
  else if String.eqb p "E" then 4 else if String.eqb p "F" then 5
  else if String.eqb p "G" then 7 else if String.eqb p "A" then 9
  else if String.eqb p "B" then 11 else 0.

Definition accidental_semitones (a : option string) : Z :=
  match a with
  | Some a =>
      if String.eqb a "#" then 1 else if String.eqb a "b" then -1 else 0
  | None => 0
  end.

Definition semitones (n : Note.t) : Z :=
  12 * Note.octave n + letter_semitones (Note.pitch n)
  + accidental_semitones (Note.accidental n).

Definition lt (a b : Note.t) : bool := semitones a <? semitones b.
Definition ge (a b : Note.t) : bool := semitones a >=? semitones b.

Definition natural (p : string) (o : Z) : Note.t := Note.mk p o None.

Definition c_major : list Note.t :=
  [natural "C" 4; natural "D" 4; natural "E" 4; natural "F" 4;
   natural "G" 4; natural "A" 4; natural "B" 4; natural "C" 5].

Definition build_scale (tonic : Note.t) (scale_type : string) : list Note.t :=
  c_major.

Definition add_note := Chord.add_note lt ge.
Definition build_chord := Chord.build_chord lt ge build_scale.

(** Note text as in the examples of chord.py: letter, octave, accidental. *)
Definition note_str (n : Note.t) : string :=
  Note.pitch n ++ Py.str_of_int (Note.octave n)
  ++ match Note.accidental n with Some a => a | None => "" end.

End Sample.


(** ** Vocabulary of the properties *)

(** The base size in the words of the specification. *)
Definition spec_base_size (n : Z) : Z := (n - 1) mod 7 + 1.

(** A pair (quality, size) the specification calls valid: a named
    quality, a positive size, and a base combination in the table. *)
Definition spec_valid (q : string) (n : Z) : Prop :=
  In q Interval.NAMED_INTERVAL_TYPES
  /\ 0 < n
  /\ Py.str_in (q ++ Py.str_of_int (spec_base_size n))
       Interval.VALID_INTERVAL_TYPES = true.

(** The chord note for one offset, in the words of the specification:
    [next_index = root_index + offset]; past 7 it wraps by 7 into the
    next octave; the note keeps the letter and accidental of
    [s[next_index]] and its octave is raised by the octave difference. *)
Definition spec_chord_note (s : list Note.t) (root_index offset : Z)
  : result Note.t :=
  let next_index := root_index + offset in
  let '(next_index, octave_diff) :=
    if next_index >? 7 then (next_index - 7, 1) else (next_index, 0) in
  note <- Py.getitem s next_index ;;
  Ok (Note.mk (Note.pitch note) (Note.octave note + octave_diff)
              (Note.accidental note)).

(** Pitch order on notes, over the comparison operators of Note. *)
Module Pitch.

Section Order.

Variables lt ge : Note.t -> Note.t -> bool.

(** The scan of [add_note] read on the notes not yet visited: the new
    note goes between the first neighbours [a], [b] with
    [new_note >= a] and [new_note < b], or at the end. *)
Fixpoint scan_insert (new_note : Note.t) (l : list Note.t) : list Note.t :=
  match l with
  | a :: ((b :: _) as tl) =>
      if ge new_note a && lt new_note b then a :: new_note :: tl
      else a :: scan_insert new_note tl
  | _ => (l ++ [new_note])%list
  end.

(** [a] is not above [b] in pitch. *)
Definition le (a b : Note.t) : Prop := lt b a = false.

Definition same_pitch (a b : Note.t) : Prop :=
  lt a b = false /\ lt b a = false.

Definition non_decreasing (l : list Note.t) : Prop := Sorted le l.

Definition lowest (r : Note.t) (l : list Note.t) : Prop := Forall (le r) l.

(** The invariant of a chord: some note, notes in non-decreasing pitch
    order, and [root()] a lowest one. *)
Definition chord_inv (c : Chord.t) : Prop :=
  Chord.notes c <> []
  /\ non_decreasing (Chord.notes c)
  /\ exists r, Chord.root c = Ok r /\ lowest r (Chord.notes c).

(** A caller adding notes one after another, stopping at the first
    exception. *)
Fixpoint add_notes (c : Chord.t) (new_notes : list Note.t) : result Chord.t :=
  match new_notes with
  | [] => Ok c
  | n :: rest => c' <- Chord.add_note lt ge c (ONote n) ;; add_notes c' rest
  end.

End Order.

End Pitch.

(** * Properties *)

Example interval_doc_dim13 :
  Interval.__init__ "dim" (Py.Int 13) = Ok (Interval.mk "dim" 13).
Proof. vm_compute. reflexivity. Qed.

Example chord_doc_ordering :
  (c1 <- Chord.__init__ (ONote (Sample.natural "G" 4)) ;;
   c2 <- Sample.add_note c1 (ONote (Sample.natural "E" 4)) ;;
   Sample.add_note c2 (ONote (Sample.natural "D" 4)))
  = Ok (Chord.mk [Sample.natural "D" 4; Sample.natural "E" 4; Sample.natural "G" 4]).
Proof. vm_compute. reflexivity. Qed.

Example chord_doc_build_V :
  snd (Sample.build_chord (ONote (Sample.natural "C" 4)) "V" "major")
  = Ok (Chord.mk [Sample.natural "G" 4; Sample.natural "B" 4; Sample.natural "D" 5]).
Proof. vm_compute. reflexivity. Qed.

Arguments Py.str_in : simpl never.
Arguments Interval.compound_base_size : simpl never.

(** ** Decimal text *)

Section Decimal_text.

Lemma prefix_empty (s : string) : prefix "" s = true.
Proof. destruct s; reflexivity. Qed.

Lemma contains_dot_uint (u : uint) :
  Py.contains "." (NilEmpty.string_of_uint u) = false.
Proof. induction u; simpl; auto. Qed.

Lemma contains_dot_str_of_int (z : Z) :
  Py.contains "." (Py.str_of_int z) = false.
Proof.
  unfold Py.str_of_int.
  destruct (Z.to_int z) as [u | u]; simpl;
    destruct u; simpl; auto using contains_dot_uint.
Qed.

Lemma int_digits_uint (u : uint) :
  Py.int_digits (NilEmpty.string_of_uint u) true = Some u.
Proof. induction u; simpl; try rewrite IHu; reflexivity. Qed.

Lemma int_of_str_uint (u : uint) :
  u <> Nil -> Py.int_of_str (NilEmpty.string_of_uint u) = Some (Z.of_uint u).
Proof.
  destruct u; intros Hu; try congruence;
    unfold Py.int_of_str; simpl; rewrite int_digits_uint; reflexivity.
Qed.

Lemma str_of_int_pos (p : positive) :
  Py.str_of_int (Z.pos p) = NilEmpty.string_of_uint (Pos.to_uint p).
Proof.
  unfold Py.str_of_int; simpl.
  pose proof (Unsigned.to_uint_nonnil p) as Hn.
  destruct (Pos.to_uint p); try congruence; reflexivity.
Qed.

(** [int(str(n)) == n] for a positive integer. *)
Lemma int_of_str_str_of_int (n : Z) :
  0 < n -> Py.int_of_str (Py.str_of_int n) = Some n.
Proof.
  destruct n as [| p | p]; try lia; intros _.
  rewrite str_of_int_pos, int_of_str_uint by apply Unsigned.to_uint_nonnil.
  unfold Z.of_uint. rewrite DecimalPos.Unsigned.of_to. reflexivity.
Qed.

(** No named interval type occurs in a run of digits. *)
Lemma remove_from_uint (q : string) (u : uint) :
  In q Interval.NAMED_INTERVAL_TYPES ->
  Py.remove_from q (NilEmpty.string_of_uint u) 0 = NilEmpty.string_of_uint u.
Proof.
  intros Hq; simpl in Hq.
  induction u; simpl; [reflexivity | ..];
    repeat (destruct Hq as [<- | Hq]; [simpl; rewrite IHu; reflexivity |]);
    contradiction.
Qed.

End Decimal_text.

(** ** Intervals *)

Section Interval_facts.

Import Interval.


Lemma while_base_size_continue (b : Z) :
  8 <= b -> while_base_size b = while_base_size (b - 7).
Proof.
  intros Hb. rewrite while_base_size_equation_1 at 1.
  destruct (Z_ge_dec b 8); [reflexivity | lia].
Qed.

Lemma while_base_size_exit (b : Z) : b < 8 -> while_base_size b = b.
Proof.
  intros Hb. rewrite while_base_size_equation_1.
  destruct (Z_ge_dec b 8); [lia | reflexivity].
Qed.

Lemma while_base_size_mod (b : Z) :
  1 <= b -> while_base_size b = spec_base_size b.
Proof.
  unfold spec_base_size.
  funelim (while_base_size b); intros Hb.
  - rewrite H by lia.
    replace (base_size - 1) with ((base_size - 7 - 1) + 1 * 7) by lia.
    rewrite Z.mod_add by lia. reflexivity.
  - rewrite Z.mod_small by lia. lia.
Qed.

Lemma compound_base_size_mod (n : Z) :
  8 <= n -> compound_base_size n = spec_base_size n.
Proof.
  intros Hn. unfold compound_base_size.
  rewrite while_base_size_mod by lia. unfold spec_base_size.
  replace (n - 1) with ((n - 7 - 1) + 1 * 7) by lia.
  rewrite Z.mod_add by lia. reflexivity.
Qed.

Lemma spec_base_size_range (n : Z) : 1 <= spec_base_size n <= 7.
Proof.
  unfold spec_base_size. pose proof (Z.mod_pos_bound (n - 1) 7). lia.
Qed.

Lemma named_str_in (q : string) :
  In q NAMED_INTERVAL_TYPES -> Py.str_in q NAMED_INTERVAL_TYPES = true.
Proof.
  intros Hq. unfold Py.str_in. apply existsb_exists.
  exists q. split; [assumption | apply String.eqb_refl].
Qed.

(** [Interval(q, n)] for an integer [n]: the outcome of each test. *)
Lemma init_int (q : string) (n : Z) :
  In q NAMED_INTERVAL_TYPES -> 0 < n ->
  __init__ q (Py.Int n) =
    if Py.str_in
         (q ++ Py.str_of_int (if n >=? 8 then compound_base_size n else n))
         VALID_INTERVAL_TYPES
    then Ok (mk q n)
    else Raise (ValueError ("Impossible interval type specified: "
                            ++ q ++ Py.str_of_int n)).
Proof.
  intros Hq Hn. unfold __init__.
  rewrite named_str_in by assumption. simpl.
  rewrite contains_dot_str_of_int.
  destruct (Z.leb_spec n 0); [lia |].
  destruct (n >=? 8); simpl;
    match goal with |- context [Py.str_in ?s ?l] => destruct (Py.str_in s l) end;
    reflexivity.
Qed.

(** A size given as the decimal text of a positive integer is treated as
    that integer. *)
Lemma init_str_of_int (q : string) (n : Z) :
  0 < n -> __init__ q (Py.Str (Py.str_of_int n)) = __init__ q (Py.Int n).
Proof.
  intros Hn. unfold __init__. simpl.
  rewrite int_of_str_str_of_int by assumption. reflexivity.
Qed.

Lemma init_ok_fields (q : string) (v : Py.val) (i : t) :
  __init__ q v = Ok i ->
  exists n, Py.int v = Some n /\ 0 < n /\ i = mk q n
            /\ In q NAMED_INTERVAL_TYPES.
Proof.
  unfold __init__.
  destruct (Py.str_in q NAMED_INTERVAL_TYPES) eqn:Hq; simpl; [| discriminate].
  destruct (Py.int v) as [n |]; [| discriminate].
  destruct (Py.contains "." (Py.str v)); [discriminate |].
  destruct (Z.leb_spec n 0); [discriminate |].
  match goal with |- context [negb ?b] => destruct b end; simpl; [| discriminate].
  intros [= <-]. exists n. repeat split; try assumption.
  apply existsb_exists in Hq. destruct Hq as [x [Hx Hxq]].
  apply String.eqb_eq in Hxq. subst x. assumption.
Qed.

Lemma remove_from_skip (old p s : string) :
  Py.remove_from old (p ++ s) (String.length p) = Py.remove_from old s 0.
Proof.
  induction p as [| c p IH]; simpl.
  - destruct s; reflexivity.
  - apply IH.
Qed.

Lemma prefix_app (p s : string) : prefix p (p ++ s) = true.
Proof.
  induction p as [| c p IH]; simpl.
  - apply prefix_empty.
  - destruct (ascii_dec c c); [assumption | congruence].
Qed.

(** Removing a leading [c :: p] that occurs nowhere else strips the prefix. *)
Lemma replace_prefix (c : ascii) (p s : string) :
  Py.replace_with_empty (String c p ++ s) (String c p)
  = Py.remove_from (String c p) s 0.
Proof.
  unfold Py.replace_with_empty.
  change (String c p ++ s) with (String c (p ++ s)).
  cbn [Py.remove_from].
  change (String c (p ++ s)) with (String c p ++ s).
  rewrite prefix_app.
  change (String.length (String c p) - 1)%nat with (String.length p - 0)%nat.
  rewrite Nat.sub_0_r. apply remove_from_skip.
Qed.

(** [from_interval_string] on a named type followed by digits. *)
Lemma from_interval_string_digits (q : string) (u : uint) :
  In q NAMED_INTERVAL_TYPES ->
  from_interval_string (q ++ NilEmpty.string_of_uint u)
  = __init__ q (Py.Str (NilEmpty.string_of_uint u)).
Proof.
  intros Hq.
  pose proof (remove_from_uint q u Hq) as Hr.
  unfold from_interval_string, NAMED_INTERVAL_TYPES.
  simpl in Hq.
  repeat (destruct Hq as [<- | Hq];
          [cbn [from_interval_string_loop]; unfold Py.startswith;
           rewrite ?prefix_app;
           repeat match goal with
             | |- context [prefix ?p (?q ++ ?s)] =>
                 change (prefix p (q ++ s)) with false; cbv iota
             end;
           rewrite replace_prefix, Hr; reflexivity |]).
  contradiction.
Qed.

End Interval_facts.

(** ** Interval construction, parsing and formatting *)


Lemma init_spec_valid (q : string) (n : Z) :
  spec_valid q n -> Interval.__init__ q (Py.Int n) = Ok (Interval.mk q n).
Proof.
  intros (Hq & Hn & Hv). rewrite init_int by assumption.
  assert (Hb : (if n >=? 8 then Interval.compound_base_size n else n)
               = spec_base_size n).
  { destruct (Z.geb_spec n 8) as [Hge | Hlt].
    - apply compound_base_size_mod. lia.
    - unfold spec_base_size. rewrite Z.mod_small by lia. lia. }
  rewrite Hb, Hv. reflexivity.
Qed.

(** C2: for a named quality and an integer size of 8 or more, the
    constructor first subtracts 7 and then keeps subtracting 7 while the
    result is 8 or more; the base size so obtained lies in 1..7 and is
    ((size - 1) mod 7) + 1 (8 gives 1, 9 gives 2, 15 gives 1); the table
    is consulted for the quality followed by the base size, not by the
    original size; and Interval('dim', 13) is accepted because dim6 is in
    the table. *)
Theorem compound_size_is_reduced_before_check (q : string) (n : Z) :
  In q Interval.NAMED_INTERVAL_TYPES -> 8 <= n ->
  Interval.compound_base_size n = Interval.while_base_size (n - 7)
  /\ (forall b, 8 <= b ->
        Interval.while_base_size b = Interval.while_base_size (b - 7))
  /\ (forall b, b < 8 -> Interval.while_base_size b = b)
  /\ 1 <= Interval.compound_base_size n <= 7
  /\ Interval.compound_base_size n = (n - 1) mod 7 + 1
  /\ Interval.__init__ q (Py.Int n)
     = (if Py.str_in (q ++ Py.str_of_int (Interval.compound_base_size n))
             Interval.VALID_INTERVAL_TYPES
        then Ok (Interval.mk q n)
        else Raise (ValueError ("Impossible interval type specified: "
                                ++ q ++ Py.str_of_int n)))
  /\ Interval.compound_base_size 8 = 1
  /\ Interval.compound_base_size 9 = 2
  /\ Interval.compound_base_size 15 = 1
  /\ Py.str_in "dim6" Interval.VALID_INTERVAL_TYPES = true
  /\ Interval.__init__ "dim" (Py.Int 13) = Ok (Interval.mk "dim" 13).
Proof.
  intros Hq Hn.
  pose proof (compound_base_size_mod n Hn) as Hmod.
  pose proof (spec_base_size_range n) as Hrange.
  repeat split;
    try (vm_compute; reflexivity);
    try (intros b Hb; auto using while_base_size_continue, while_base_size_exit);
    try (rewrite Hmod; unfold spec_base_size in *; lia).
  rewrite init_int by (assumption || lia).
  destruct (Z.geb_spec n 8); [reflexivity | lia].
Qed.

Lemma compound_size_is_reduced_before_check_witness :
  In "dim" Interval.NAMED_INTERVAL_TYPES /\ 8 <= 13
  /\ Interval.compound_base_size 13 = (13 - 1) mod 7 + 1
  /\ Interval.__init__ "dim" (Py.Int 13)
     = (if Py.str_in ("dim" ++ Py.str_of_int (Interval.compound_base_size 13))
             Interval.VALID_INTERVAL_TYPES
        then Ok (Interval.mk "dim" 13)
        else Raise (ValueError ("Impossible interval type specified: "
                                ++ "dim" ++ Py.str_of_int 13))).
Proof.
  assert (Hq : In "dim" Interval.NAMED_INTERVAL_TYPES) by (simpl; tauto).
  assert (Hn : 8 <= 13) by lia.
  destruct (compound_size_is_reduced_before_check "dim" 13 Hq Hn)
    as (_ & _ & _ & _ & Hmod & Hinit & _).
  repeat split; assumption.
Defined.

(** C4: for every valid pair (quality, size), with size a positive
    integer, the constructor succeeds, and parsing the formatted
    interval gives an interval with the same quality and the same size. *)
Theorem parse_format_round_trip (q : string) (n : Z) :
  spec_valid q n ->
  exists i,
    Interval.__init__ q (Py.Int n) = Ok i
    /\ Interval.interval_type i = q
    /\ Interval.size i = n
    /\ Interval.from_interval_string (Interval.__str__ i)
       = Interval.__init__ q (Py.Int n).
Proof.
  intros Hv. pose proof (init_spec_valid q n Hv) as Hinit.
  destruct Hv as (Hq & Hn & _).
  exists (Interval.mk q n). repeat split; try assumption.
  unfold Interval.__str__; simpl.
  destruct n as [| p | p]; try lia.
  rewrite str_of_int_pos, from_interval_string_digits by assumption.
  rewrite <- str_of_int_pos. apply init_str_of_int. lia.
Qed.

Lemma parse_format_round_trip_witness :
  spec_valid "dim" 13
  /\ exists i,
       Interval.__init__ "dim" (Py.Int 13) = Ok i
       /\ Interval.interval_type i = "dim"
       /\ Interval.size i = 13
       /\ Interval.from_interval_string (Interval.__str__ i)
          = Interval.__init__ "dim" (Py.Int 13).
Proof.
  assert (Hv : spec_valid "dim" 13).
  { unfold spec_valid.
    split; [simpl; tauto | split; [lia | vm_compute; reflexivity]]. }
  split; [exact Hv | exact (parse_format_round_trip "dim" 13 Hv)].
Defined.

(** C8: formatting renders the size the interval was built with, not
    the reduced base: whenever the constructor succeeds, the text is the
    quality followed by the decimal digits of the integer value of the
    size given.  Interval('dim', 13) succeeds, its table check is the
    one of Interval('dim', 6), and it is printed as dim13. *)
Theorem format_renders_original_size (q : string) (v : Py.val) (i : Interval.t) :
  Interval.__init__ q v = Ok i ->
  (exists n, Py.int v = Some n /\ Interval.size i = n
             /\ Interval.__str__ i = q ++ Py.str_of_int n)
  /\ Interval.__init__ "dim" (Py.Int 13) = Ok (Interval.mk "dim" 13)
  /\ Interval.__init__ "dim" (Py.Int 6) = Ok (Interval.mk "dim" 6)
  /\ "dim" ++ Py.str_of_int (Interval.compound_base_size 13)
     = "dim" ++ Py.str (Py.Int 6)
  /\ Interval.__str__ (Interval.mk "dim" 13) = "dim13".
Proof.
  intros Hi. split; [| repeat split; vm_compute; reflexivity].
  destruct (init_ok_fields q v i Hi) as (n & Hint & _ & -> & _).
  exists n. repeat split. assumption.
Qed.

Lemma format_renders_original_size_witness :
  Interval.__init__ "aug" (Py.Int 11) = Ok (Interval.mk "aug" 11)
  /\ Interval.__str__ (Interval.mk "aug" 11) = "aug11".
Proof.
  assert (Hi : Interval.__init__ "aug" (Py.Int 11) = Ok (Interval.mk "aug" 11))
    by (vm_compute; reflexivity).
  split; [exact Hi |].
  destruct (format_renders_original_size "aug" (Py.Int 11) _ Hi)
    as ((n & Hn & _ & Hs) & _).
  injection Hn as <-. exact Hs.
Defined.

(** C5: a size given as text is read with [int], so "05" is the positive
    integer 5 and P5 is in the table; the constructor nevertheless
    rejects ('P', "05"), because below 8 it looks up the quality followed
    by the text as given, while from 8 on it looks up the digits of the
    reduced integer and accepts ('P', "012"). *)
Theorem size_text_below_8_checked_verbatim :
  Py.str_in "P" Interval.NAMED_INTERVAL_TYPES = true
  /\ Py.int (Py.Str "05") = Some 5
  /\ Py.str_in ("P" ++ Py.str_of_int (spec_base_size 5))
       Interval.VALID_INTERVAL_TYPES = true
  /\ Interval.__init__ "P" (Py.Str "05")
     = Raise (ValueError "Impossible interval type specified: P05")
  /\ Interval.__init__ "P" (Py.Int 5) = Ok (Interval.mk "P" 5)
  /\ Interval.__init__ "P" (Py.Str "012") = Ok (Interval.mk "P" 12).
Proof. repeat split; vm_compute; reflexivity. Qed.

(** C6: 'PP5' is the prefix P followed by 'P5', which is not a size the
    constructor accepts; [from_interval_string] accepts the token all the
    same, because it deletes every occurrence of the prefix and hands
    '5' to the constructor.  'Mbutts' is rejected, as is a token with no
    known prefix. *)
Theorem parse_deletes_every_prefix_occurrence :
  Py.startswith "PP5" "P" = true
  /\ is_invalid_argument (Interval.__init__ "P" (Py.Str "P5")) = true
  /\ Interval.from_interval_string "PP5" = Ok (Interval.mk "P" 5)
  /\ Interval.from_interval_string "P1P2" = Ok (Interval.mk "P" 12)
  /\ is_invalid_argument (Interval.from_interval_string "Mbutts") = true
  /\ is_invalid_argument (Interval.from_interval_string "asd5") = true.
Proof. repeat split; vm_compute; reflexivity. Qed.

(** ** Lists read by index *)

Local Open Scope list_scope.

Section Index_facts.

Context {A : Type}.

Lemma getitem_app (pre : list A) (a : A) (suf : list A) :
  Py.getitem (pre ++ a :: suf) (Z.of_nat (List.length pre)) = Ok a.
Proof.
  unfold Py.getitem. rewrite length_app; simpl List.length.
  destruct (Z.ltb_spec (Z.of_nat (List.length pre)) 0); [lia |].
  destruct (Z.leb_spec 0 (Z.of_nat (List.length pre))); [| lia].
  destruct (Z.ltb_spec (Z.of_nat (List.length pre))
              (Z.of_nat (List.length pre + S (List.length suf)))); [| lia].
  simpl. rewrite Nat2Z.id, nth_error_app2, Nat.sub_diag by lia. reflexivity.
Qed.

Lemma getitem_head (a : A) (l : list A) : Py.getitem (a :: l) 0 = Ok a.
Proof. exact (getitem_app [] a l). Qed.

Lemma getitem_in_range (l : list A) (i : Z) :
  0 <= i < Z.of_nat (List.length l) ->
  exists a, Py.getitem l i = Ok a /\ nth_error l (Z.to_nat i) = Some a.
Proof.
  intros Hi. unfold Py.getitem.
  destruct (Z.ltb_spec i 0); [lia |].
  destruct (Z.leb_spec 0 i); [| lia].
  destruct (Z.ltb_spec i (Z.of_nat (List.length l))); [| lia].
  simpl. destruct (nth_error l (Z.to_nat i)) as [a |] eqn:Hnth.
  - exists a. split; reflexivity.
  - apply nth_error_None in Hnth. lia.
Qed.

Lemma insert_app (pre suf : list A) (x : A) :
  Py.insert (pre ++ suf) (List.length pre) x = pre ++ x :: suf.
Proof.
  unfold Py.insert.
  rewrite firstn_app, firstn_all, Nat.sub_diag, firstn_O, app_nil_r.
  rewrite skipn_app, skipn_all, Nat.sub_diag. reflexivity.
Qed.

End Index_facts.

(** ** add_note as an insertion *)

Section Add_note_facts.

Variables lt ge : Note.t -> Note.t -> bool.

Local Abbreviation scan_insert := (Pitch.scan_insert lt ge).


Lemma scan_insert_step (n a b : Note.t) (tl : list Note.t) :
  scan_insert n (a :: b :: tl)
  = if ge n a && lt n b then a :: n :: b :: tl
    else a :: scan_insert n (b :: tl).
Proof. reflexivity. Qed.

Lemma add_note_loop_scan (new_note : Note.t) (suf pre : list Note.t) :
  Chord.add_note_loop lt ge (pre ++ suf) new_note
    (seq (List.length pre) (List.length suf - 1))
  = Ok (pre ++ scan_insert new_note suf).
Proof.
  revert pre. induction suf as [| a suf IH]; intros pre.
  - simpl. rewrite app_nil_r. reflexivity.
  - destruct suf as [| b tl].
    + simpl. rewrite <- app_assoc. reflexivity.
    + change (List.length (a :: b :: tl) - 1)%nat with (S (List.length tl)).
      cbn [seq Chord.add_note_loop Pitch.scan_insert].
      rewrite getitem_app. cbn [bind].
      replace (Z.of_nat (List.length pre) + 1)
        with (Z.of_nat (List.length (pre ++ [a]))) by (rewrite length_app; simpl; lia).
      replace (pre ++ a :: b :: tl) with ((pre ++ [a]) ++ b :: tl)
        by (rewrite <- app_assoc; reflexivity).
      rewrite getitem_app. cbn [bind].
      specialize (IH (pre ++ [a])).
      replace (List.length (pre ++ [a])) with (S (List.length pre)) in IH
        by (rewrite length_app; simpl; lia).
      replace (List.length (b :: tl) - 1)%nat with (List.length tl) in IH
        by (simpl; lia).
      destruct (ge new_note a); cbn [andb].
      * destruct (lt new_note b).
        -- replace (List.length pre + 1)%nat with (List.length (pre ++ [a]))
             by (rewrite length_app; simpl; lia).
           rewrite insert_app, <- app_assoc. reflexivity.
        -- rewrite IH, <- app_assoc. reflexivity.
      * rewrite IH, <- app_assoc. reflexivity.
Qed.

(** [add_note] on a chord that has a first note never raises. *)
Lemma add_note_cons (r : Note.t) (rest : list Note.t) (n : Note.t) :
  Chord.add_note lt ge (Chord.mk (r :: rest)) (ONote n)
  = Ok (Chord.mk (if lt n r then n :: r :: rest
                  else scan_insert n (r :: rest))).
Proof.
  unfold Chord.add_note, Chord.root. cbn [Chord.notes].
  rewrite getitem_head. cbn [bind].
  destruct (lt n r).
  - reflexivity.
  - pose proof (add_note_loop_scan n (r :: rest) []) as Hscan.
    simpl in Hscan. simpl. rewrite Hscan. reflexivity.
Qed.

Lemma scan_insert_perm (n : Note.t) (l : list Note.t) :
  Permutation (scan_insert n l) (n :: l).
Proof.
  induction l as [| a l IH].
  - reflexivity.
  - destruct l as [| b tl].
    + simpl. apply perm_swap.
    + cbn [Pitch.scan_insert]. destruct (ge n a && lt n b).
      * apply perm_swap.
      * rewrite IH. apply perm_swap.
Qed.

Lemma scan_insert_head (n a : Note.t) (l : list Note.t) :
  exists l', scan_insert n (a :: l) = a :: l'.
Proof.
  destruct l as [| b tl]; cbn [Pitch.scan_insert].
  - eexists. reflexivity.
  - destruct (ge n a && lt n b); eexists; reflexivity.
Qed.

Lemma add_note_perm (c c' : Chord.t) (n : Note.t) :
  Chord.add_note lt ge c (ONote n) = Ok c' ->
  Permutation (Chord.notes c') (n :: Chord.notes c).
Proof.
  destruct c as [[| r rest]].
  - unfold Chord.add_note, Chord.root. simpl. discriminate.
  - rewrite add_note_cons. intros H. injection H as <-. unfold Chord.notes.
    destruct (lt n r); [reflexivity | exact (scan_insert_perm n (r :: rest))].
Qed.

End Add_note_facts.

(** ** Chords over notes ordered by pitch *)

Section Ordered_chords.

Variables lt ge : Note.t -> Note.t -> bool.

Local Abbreviation le := (Pitch.le lt).
Local Abbreviation same_pitch := (Pitch.same_pitch lt).
Local Abbreviation non_decreasing := (Pitch.non_decreasing lt).
Local Abbreviation lowest := (Pitch.lowest lt).
Local Abbreviation chord_inv := (Pitch.chord_inv lt).


(** Notes are totally ordered by pitch: [<] is a strict weak order and
    [>=] is its negation. *)
Hypothesis ge_lt : forall a b, ge a b = negb (lt a b).
Hypothesis lt_irrefl : forall a, lt a a = false.
Hypothesis lt_trans :
  forall a b c, lt a b = true -> lt b c = true -> lt a c = true.
Hypothesis le_trans : forall a b c, le a b -> le b c -> le a c.

Lemma lt_asym (a b : Note.t) : lt a b = true -> lt b a = false.
Proof.
  intros Hab. destruct (lt b a) eqn:Hba; [| reflexivity].
  rewrite <- (lt_irrefl a). symmetry. eauto.
Qed.

Lemma le_Transitive : RelationClasses.Transitive le.
Proof. exact le_trans. Qed.

Lemma scan_insert_sorted (n : Note.t) (l : list Note.t) (a : Note.t) :
  Sorted le (a :: l) -> le a n -> Sorted le (Pitch.scan_insert lt ge n (a :: l)).
Proof.
  revert a. induction l as [| b tl IH]; intros a Hs Han.
  - simpl. repeat constructor. exact Han.
  - apply Sorted_inv in Hs. destruct Hs as [Hs Hab].
    apply HdRel_inv in Hab.
    rewrite scan_insert_step, ge_lt, Han. cbn [negb andb].
    destruct (lt n b) eqn:Hnb.
    + constructor; [constructor | constructor; exact Han].
      * exact Hs.
      * constructor. apply lt_asym. exact Hnb.
    + specialize (IH b Hs Hnb).
      destruct (scan_insert_head lt ge n b tl) as [l' Hl'].
      constructor; [exact IH |]. rewrite Hl'. constructor. exact Hab.
Qed.

Lemma lowest_of_sorted (r : Note.t) (l : list Note.t) :
  Sorted le (r :: l) -> lowest r (r :: l).
Proof.
  intros Hs. apply Sorted_StronglySorted in Hs; [| exact le_Transitive].
  apply StronglySorted_inv in Hs. destruct Hs as [_ Hr].
  constructor; [apply lt_irrefl | exact Hr].
Qed.

Lemma chord_inv_of_sorted (r : Note.t) (l : list Note.t) :
  Sorted le (r :: l) -> chord_inv (Chord.mk (r :: l)).
Proof.
  intros Hs. split; [discriminate |]. split; [exact Hs |].
  exists r. split; [apply getitem_head | apply lowest_of_sorted; exact Hs].
Qed.

Lemma add_note_sorted (r : Note.t) (rest : list Note.t) (n : Note.t) :
  Sorted le (r :: rest) ->
  Sorted le (if lt n r then n :: r :: rest
             else Pitch.scan_insert lt ge n (r :: rest)).
Proof.
  intros Hs. destruct (lt n r) eqn:Hnr.
  - constructor; [exact Hs |]. constructor. apply lt_asym. exact Hnr.
  - apply scan_insert_sorted; assumption.
Qed.

Lemma StronglySorted_app_le (l1 : list Note.t) (y : Note.t) (l2 : list Note.t)
    (x : Note.t) :
  StronglySorted le (l1 ++ y :: l2) -> In x l1 -> le x y.
Proof.
  induction l1 as [| a l1 IH]; intros Hs Hx; [contradiction |].
  simpl in Hs. apply StronglySorted_inv in Hs. destruct Hs as [Hs Ha].
  destruct Hx as [<- | Hx].
  - rewrite Forall_forall in Ha. apply Ha. apply in_elt.
  - apply IH; assumption.
Qed.

(** Where the scan puts a note that is not below the first one: after
    every note that is not above it, before every note that is. *)
Lemma scan_insert_split (n : Note.t) (l : list Note.t) (a : Note.t) :
  StronglySorted le (a :: l) -> le a n ->
  exists l1 y l2,
    a :: l = l1 ++ y :: l2
    /\ Pitch.scan_insert lt ge n (a :: l) = l1 ++ y :: n :: l2
    /\ le y n
    /\ Forall (fun z => le z n) l1
    /\ Forall (fun z => lt n z = true) l2.
Proof.
  revert a. induction l as [| b tl IH]; intros a Hs Han.
  - exists [], a, []. repeat split; auto.
  - apply StronglySorted_inv in Hs. destruct Hs as [Hs Ha].
    rewrite scan_insert_step, ge_lt, Han. cbn [negb andb].
    destruct (lt n b) eqn:Hnb.
    + exists [], a, (b :: tl). repeat split; auto.
      constructor; [exact Hnb |].
      apply StronglySorted_inv in Hs. destruct Hs as [_ Hb].
      rewrite Forall_forall in Hb |- *. intros z Hz.
      destruct (lt n z) eqn:Hnz; [reflexivity |].
      pose proof (le_trans b z n (Hb z Hz) Hnz) as Hbn.
      unfold Pitch.le in Hbn. congruence.
    + destruct (IH b Hs Hnb) as (l1 & y & l2 & Heq & Hscan & Hy & H1 & H2).
      exists (a :: l1), y, l2. repeat split; auto.
      * simpl. rewrite Heq. reflexivity.
      * simpl. rewrite <- Hscan. reflexivity.
Qed.

(** C3: a chord always has a note, its notes are in non-decreasing
    pitch order, and [root()] is a lowest one.  The constructor sets this
    up with exactly one note; [add_note] on a chord in this state never
    raises, leaves a permutation of the old notes plus the new one, and
    keeps the state. *)
Theorem chord_notes_stay_ordered (c : Chord.t) (n : Note.t) :
  chord_inv c ->
  (exists c0,
      Chord.__init__ (ONote n) = Ok c0
      /\ Chord.notes c0 = [n]
      /\ chord_inv c0)
  /\ (exists c',
        Chord.add_note lt ge c (ONote n) = Ok c'
        /\ Permutation (Chord.notes c') (n :: Chord.notes c)
        /\ chord_inv c').
Proof.
  intros (Hne & Hs & _). split.
  - exists (Chord.mk [n]). repeat split; try discriminate.
    + repeat constructor.
    + exists n. split; [apply getitem_head |].
      constructor; [apply lt_irrefl | constructor].
  - destruct c as [[| r rest]]; [contradiction |].
    cbn [Chord.notes] in Hs. unfold Pitch.non_decreasing in Hs.
    eexists. split; [apply add_note_cons |]. split.
    + unfold Chord.notes.
      destruct (lt n r);
        [reflexivity | exact (scan_insert_perm lt ge n (r :: rest))].
    + pose proof (add_note_sorted r rest n Hs) as Hs'.
      destruct (lt n r) eqn:Hnr.
      * apply chord_inv_of_sorted. exact Hs'.
      * destruct (scan_insert_head lt ge n r rest) as [l' Hl'].
        rewrite Hl' in Hs' |- *. apply chord_inv_of_sorted. exact Hs'.
Qed.

(** C10: when the notes are in non-decreasing pitch order and the new
    note has the pitch of some note already there, [add_note] puts it
    right after a note [y] of its own pitch, with only strictly higher
    notes behind it: after the last note of equal pitch. *)
Theorem equal_pitch_goes_after_last_equal (c : Chord.t) (n : Note.t) :
  Chord.notes c <> [] ->
  non_decreasing (Chord.notes c) ->
  (exists x, In x (Chord.notes c) /\ same_pitch x n) ->
  exists l1 y l2,
    Chord.notes c = l1 ++ y :: l2
    /\ Chord.add_note lt ge c (ONote n) = Ok (Chord.mk (l1 ++ y :: n :: l2))
    /\ same_pitch y n
    /\ Forall (fun z => le z n) l1
    /\ Forall (fun z => lt n z = true) l2.
Proof.
  intros Hne Hs (x & Hx & Hxn & Hnx).
  destruct c as [[| r rest]]; [contradiction |].
  cbn [Chord.notes] in *. unfold Pitch.non_decreasing in Hs.
  apply Sorted_StronglySorted in Hs; [| exact le_Transitive].
  assert (Hrn : le r n).
  { pose proof (StronglySorted_inv Hs) as [_ Hr].
    destruct Hx as [<- | Hx]; [exact Hnx |].
    rewrite Forall_forall in Hr. exact (le_trans r x n (Hr x Hx) Hnx). }
  destruct (scan_insert_split n rest r Hs Hrn)
    as (l1 & y & l2 & Heq & Hscan & Hyn & H1 & H2).
  exists l1, y, l2. rewrite add_note_cons, Hrn, Hscan.
  repeat split; try assumption.
  rewrite Heq in Hx, Hs. apply in_app_or in Hx.
  destruct Hx as [Hx | [<- | Hx]].
  - pose proof (StronglySorted_app_le l1 y l2 x Hs Hx) as Hxy.
    exact (le_trans n x y Hxn Hxy).
  - exact Hxn.
  - rewrite Forall_forall in H2. specialize (H2 x Hx). congruence.
Qed.

End Ordered_chords.

(** The sample order is a total order by pitch. *)
Module Sample_order.

Lemma ge_lt (a b : Note.t) : Sample.ge a b = negb (Sample.lt a b).
Proof.
  unfold Sample.ge, Sample.lt.
  destruct (Z.geb_spec (Sample.semitones a) (Sample.semitones b));
    destruct (Z.ltb_spec (Sample.semitones a) (Sample.semitones b));
    simpl; lia.
Qed.

Lemma lt_irrefl (a : Note.t) : Sample.lt a a = false.
Proof. apply Z.ltb_irrefl. Qed.

Lemma lt_trans (a b c : Note.t) :
  Sample.lt a b = true -> Sample.lt b c = true -> Sample.lt a c = true.
Proof. unfold Sample.lt. rewrite !Z.ltb_lt. lia. Qed.

Lemma le_trans (a b c : Note.t) :
  Pitch.le Sample.lt a b -> Pitch.le Sample.lt b c -> Pitch.le Sample.lt a c.
Proof. unfold Pitch.le, Sample.lt. rewrite !Z.ltb_ge. lia. Qed.

End Sample_order.

Lemma chord_notes_stay_ordered_witness :
  let e4 := Sample.natural "E" 4 in
  let g4 := Sample.natural "G" 4 in
  let d4 := Sample.natural "D" 4 in
  Pitch.chord_inv Sample.lt (Chord.mk [e4; g4])
  /\ exists c',
       Sample.add_note (Chord.mk [e4; g4]) (ONote d4) = Ok c'
       /\ Permutation (Chord.notes c') [d4; e4; g4]
       /\ Pitch.chord_inv Sample.lt c'.
Proof.
  intros e4 g4 d4.
  assert (Hinv : Pitch.chord_inv Sample.lt (Chord.mk [e4; g4])).
  { split; [discriminate |]. split.
    - repeat constructor.
    - exists e4. split; [reflexivity | repeat constructor]. }
  split; [exact Hinv |].
  exact (proj2 (chord_notes_stay_ordered Sample.lt Sample.ge
                  Sample_order.ge_lt Sample_order.lt_irrefl
                  Sample_order.lt_trans Sample_order.le_trans
                  (Chord.mk [e4; g4]) d4 Hinv)).
Defined.

Lemma equal_pitch_goes_after_last_equal_witness :
  let c4 := Sample.natural "C" 4 in
  let e4 := Sample.natural "E" 4 in
  let fb4 := Note.mk "F" 4 (Some "b") in
  let g4 := Sample.natural "G" 4 in
  exists l1 y l2,
    [c4; e4; g4] = l1 ++ y :: l2
    /\ Sample.add_note (Chord.mk [c4; e4; g4]) (ONote fb4)
       = Ok (Chord.mk (l1 ++ y :: fb4 :: l2))
    /\ Pitch.same_pitch Sample.lt y fb4
    /\ Forall (fun z => Pitch.le Sample.lt z fb4) l1
    /\ Forall (fun z => Sample.lt fb4 z = true) l2.
Proof.
  intros c4 e4 fb4 g4.
  apply (equal_pitch_goes_after_last_equal Sample.lt Sample.ge
           Sample_order.ge_lt Sample_order.le_trans
           (Chord.mk [c4; e4; g4]) fb4).
  - discriminate.
  - repeat constructor.
  - exists e4. split; [simpl; tauto | split; reflexivity].
Defined.

Example equal_pitch_example :
  Sample.add_note
    (Chord.mk [Sample.natural "C" 4; Sample.natural "E" 4; Sample.natural "G" 4])
    (ONote (Note.mk "F" 4 (Some "b")))
  = Ok (Chord.mk [Sample.natural "C" 4; Sample.natural "E" 4;
                  Note.mk "F" 4 (Some "b"); Sample.natural "G" 4]).
Proof. vm_compute. reflexivity. Qed.

(** ** build_chord *)


Lemma degree_index_range (d : string) (root_idx : Z) :
  Py.dict_get Chord._CHORD_NUM_SCALE_INDEX d = Some root_idx ->
  0 <= root_idx <= 7.
Proof.
  unfold Chord._CHORD_NUM_SCALE_INDEX. cbn [Py.dict_get].
  repeat match goal with
         | |- context [String.eqb d ?k] => destruct (String.eqb d k)
         end;
    intros [= <-]; lia.
Qed.

Lemma chord_pattern_offsets (q : string) (pattern : list Z) :
  Py.dict_get Chord._CHORD_PATTERNS q = Some pattern -> pattern = [2; 4].
Proof.
  unfold Chord._CHORD_PATTERNS. cbn [Py.dict_get].
  repeat match goal with
         | |- context [String.eqb q ?k] => destruct (String.eqb q k)
         end;
    intros [= <-]; reflexivity.
Qed.

Lemma spec_chord_note_ok (s : list Note.t) (root_index offset : Z) :
  List.length s = 8%nat -> 0 <= root_index <= 7 -> In offset [2; 4] ->
  exists n, spec_chord_note s root_index offset = Ok n.
Proof.
  intros Hlen Hr Hoff. unfold spec_chord_note.
  assert (Ho : offset = 2 \/ offset = 4) by (simpl in Hoff; intuition).
  destruct (Z.gtb_spec (root_index + offset) 7).
  - destruct (getitem_in_range s (root_index + offset - 7)) as (a & Ha & _);
      [rewrite Hlen; lia |].
    rewrite Ha. eexists. reflexivity.
  - destruct (getitem_in_range s (root_index + offset)) as (a & Ha & _);
      [rewrite Hlen; lia |].
    rewrite Ha. eexists. reflexivity.
Qed.

Section Build_chord_facts.

Variables lt ge : Note.t -> Note.t -> bool.
Variable build_scale : Note.t -> string -> list Note.t.

Lemma build_chord_loop_step (s : list Note.t) (root_idx index_diff : Z)
    (rest : list Z) (cls : Chord.t) :
  List.length s = 8%nat ->
  Chord.build_chord_loop lt ge s root_idx (index_diff :: rest) cls
  = (n <- spec_chord_note s root_idx index_diff ;;
     cls' <- Chord.add_note lt ge cls (ONote n) ;;
     Chord.build_chord_loop lt ge s root_idx rest cls').
Proof.
  intros Hlen. cbn [Chord.build_chord_loop]. rewrite Hlen.
  unfold Chord.wrap_index, spec_chord_note.
  change (Z.of_nat 8 - 1) with 7. change (0 + 1) with 1.
  destruct (root_idx + index_diff >? 7);
    match goal with |- context [Py.getitem s ?i] => destruct (Py.getitem s i) end;
    reflexivity.
Qed.

Lemma add_note_ok (c : Chord.t) (n : Note.t) :
  Chord.notes c <> [] ->
  exists c', Chord.add_note lt ge c (ONote n) = Ok c'
             /\ Permutation (Chord.notes c') (n :: Chord.notes c).
Proof.
  intros Hne. destruct c as [[| r rest]]; [contradiction |].
  eexists. split; [apply add_note_cons |].
  apply (add_note_perm lt ge). apply add_note_cons.
Qed.

(** What a run of [build_chord] on valid tokens and an 8-note scale does. *)
Lemma build_chord_run (t : Note.t) (d q : string)
    (root_index : Z) (pattern : list Z) :
  Py.dict_get Chord._CHORD_NUM_SCALE_INDEX d = Some root_index ->
  Py.dict_get Chord._CHORD_PATTERNS q = Some pattern ->
  List.length (build_scale t q) = 8%nat ->
  pattern = [2; 4]
  /\ exists root n1 n2 c1 c2,
       Py.getitem (build_scale t q) root_index = Ok root
       /\ spec_chord_note (build_scale t q) root_index 2 = Ok n1
       /\ spec_chord_note (build_scale t q) root_index 4 = Ok n2
       /\ Chord.add_note lt ge (Chord.mk [root]) (ONote n1) = Ok c1
       /\ Chord.add_note lt ge c1 (ONote n2) = Ok c2
       /\ Chord.build_chord lt ge build_scale (ONote t) d q
          = ([(t, q)], Ok c2)
       /\ Permutation (Chord.notes c2) [root; n1; n2].
Proof.
  intros Hd Hq Hlen.
  pose proof (degree_index_range d root_index Hd) as Hr.
  pose proof (chord_pattern_offsets q pattern Hq) as Hp. subst pattern.
  split; [reflexivity |].
  destruct (getitem_in_range (build_scale t q) root_index) as (root & Hroot & _);
    [rewrite Hlen; lia |].
  destruct (spec_chord_note_ok (build_scale t q) root_index 2 Hlen Hr)
    as [n1 Hn1]; [simpl; tauto |].
  destruct (spec_chord_note_ok (build_scale t q) root_index 4 Hlen Hr)
    as [n2 Hn2]; [simpl; tauto |].
  destruct (add_note_ok (Chord.mk [root]) n1) as (c1 & Hc1 & Hp1);
    [discriminate |].
  destruct (add_note_ok c1 n2) as (c2 & Hc2 & Hp2).
  { intros Hnil. rewrite Hnil in Hp1.
    apply Permutation_nil in Hp1. discriminate. }
  exists root, n1, n2, c1, c2. repeat split; try assumption.
  - unfold Chord.build_chord. rewrite Hd, Hq. cbv zeta.
    rewrite Hroot. cbn [bind Chord.__init__].
    rewrite build_chord_loop_step, Hn1 by assumption. cbn [bind].
    rewrite Hc1. cbn [bind].
    rewrite build_chord_loop_step, Hn2 by assumption. cbn [bind].
    rewrite Hc2. reflexivity.
  - rewrite Hp2, Hp1. cbn [Chord.notes].
    exact (Permutation_rev [n2; n1; root]).
Qed.


(** C1: for a degree token of the table, a quality token of the table
    and a scale [s] of 8 notes from [Scale.build_scale], [build_chord]
    asks for that scale once, takes the root at the degree's index, and
    for the offsets 2 and 4 adds the note the specification describes
    (index wrapped by 7 past 7, octave raised by one on a wrap, same
    letter and accidental); the chord returned holds the root and these
    two notes. *)
Theorem build_chord_follows_pattern (t : Note.t) (d q : string)
    (root_index : Z) (pattern : list Z) :
  Py.dict_get Chord._CHORD_NUM_SCALE_INDEX d = Some root_index ->
  Py.dict_get Chord._CHORD_PATTERNS q = Some pattern ->
  List.length (build_scale t q) = 8%nat ->
  pattern = [2; 4]
  /\ exists root n1 n2 c1 c2,
       Py.getitem (build_scale t q) root_index = Ok root
       /\ spec_chord_note (build_scale t q) root_index 2 = Ok n1
       /\ spec_chord_note (build_scale t q) root_index 4 = Ok n2
       /\ Chord.add_note lt ge (Chord.mk [root]) (ONote n1) = Ok c1
       /\ Chord.add_note lt ge c1 (ONote n2) = Ok c2
       /\ Chord.build_chord lt ge build_scale (ONote t) d q
          = ([(t, q)], Ok c2)
       /\ Permutation (Chord.notes c2) [root; n1; n2].
Proof. exact (build_chord_run t d q root_index pattern). Qed.

(** C9: for a degree token and a quality token of the tables and a scale
    of exactly 8 notes, each index [build_chord] reads lies in 0..7: the
    root index, and each next index, which is at most 11 before the wrap
    and at most 4 after it; so no read of the scale is out of bounds and
    [build_chord] returns a chord. *)
Theorem scale_reads_stay_in_bounds (t : Note.t) (d q : string)
    (root_index : Z) (pattern : list Z) (index_diff : Z) :
  Py.dict_get Chord._CHORD_NUM_SCALE_INDEX d = Some root_index ->
  Py.dict_get Chord._CHORD_PATTERNS q = Some pattern ->
  In index_diff pattern ->
  List.length (build_scale t q) = 8%nat ->
  let s := build_scale t q in
  let next_idx := root_index + index_diff in
  let read_idx := fst (Chord.wrap_index (Z.of_nat (List.length s)) next_idx) in
  0 <= root_index <= 7
  /\ next_idx <= 11
  /\ 0 <= read_idx <= 7
  /\ (7 < next_idx -> read_idx = next_idx - 7 /\ read_idx <= 4)
  /\ (next_idx <= 7 -> read_idx = next_idx)
  /\ succeeds (Py.getitem s root_index) = true
  /\ succeeds (Py.getitem s read_idx) = true
  /\ succeeds (snd (Chord.build_chord lt ge build_scale (ONote t) d q)) = true.
Proof.
  intros Hd Hq Hin Hlen s next_idx read_idx.
  pose proof (degree_index_range d root_index Hd) as Hr.
  pose proof (chord_pattern_offsets q pattern Hq) as Hp.
  assert (Ho : index_diff = 2 \/ index_diff = 4)
    by (subst pattern; simpl in Hin; intuition).
  assert (Hread : read_idx = if next_idx >? 7 then next_idx - 7 else next_idx).
  { unfold read_idx, Chord.wrap_index, s. rewrite Hlen.
    change (Z.of_nat 8 - 1) with 7. destruct (next_idx >? 7); reflexivity. }
  assert (Hbound : 0 <= read_idx <= 7
                   /\ (7 < next_idx -> read_idx = next_idx - 7 /\ read_idx <= 4)
                   /\ (next_idx <= 7 -> read_idx = next_idx)).
  { rewrite Hread. unfold next_idx.
    destruct (Z.gtb_spec (root_index + index_diff) 7); lia. }
  destruct Hbound as (Hb1 & Hb2 & Hb3).
  repeat split; try (unfold next_idx; lia); try tauto;
    try (apply Hb2; assumption); try (apply Hb3; assumption).
  - destruct (getitem_in_range s root_index) as (a & Ha & _);
      [unfold s; rewrite Hlen; lia |].
    rewrite Ha. reflexivity.
  - destruct (getitem_in_range s read_idx) as (a & Ha & _);
      [unfold s; rewrite Hlen; lia |].
    rewrite Ha. reflexivity.
  - destruct (build_chord_run t d q root_index pattern Hd Hq Hlen)
      as (_ & _ & _ & _ & _ & c & _ & _ & _ & _ & _ & Hc & _).
    rewrite Hc. reflexivity.
Qed.

(** C7: [build_chord] raises an InvalidArgument error when the tonic
    is not a Note, when the degree token is not a key of the degree
    table (as 'IX'), or when the quality token is not a key of the
    pattern table (as 'dorian'); in each case [Scale.build_scale] has
    not been called, and no chord is returned. *)
Theorem build_chord_rejects_before_scale (tonic_key : obj) (d q : string) :
  (forall n, tonic_key <> ONote n)
  \/ Py.dict_get Chord._CHORD_NUM_SCALE_INDEX d = None
  \/ Py.dict_get Chord._CHORD_PATTERNS q = None ->
  fst (Chord.build_chord lt ge build_scale tonic_key d q) = []
  /\ is_invalid_argument
       (snd (Chord.build_chord lt ge build_scale tonic_key d q)) = true
  /\ succeeds (snd (Chord.build_chord lt ge build_scale tonic_key d q)) = false
  /\ Py.dict_get Chord._CHORD_NUM_SCALE_INDEX "IX" = None
  /\ Py.dict_get Chord._CHORD_PATTERNS "dorian" = None.
Proof.
  intros H.
  assert (Hrun : fst (Chord.build_chord lt ge build_scale tonic_key d q) = []
                 /\ is_invalid_argument
                      (snd (Chord.build_chord lt ge build_scale tonic_key d q))
                    = true).
  { unfold Chord.build_chord.
    destruct tonic_key as [n | s | z]; try (split; reflexivity).
    destruct H as [H | [H | H]].
    - exfalso. exact (H n eq_refl).
    - rewrite H. split; reflexivity.
    - rewrite H.
      destruct (Py.dict_get Chord._CHORD_NUM_SCALE_INDEX d); split; reflexivity. }
  destruct Hrun as [Hcalls Herr].
  repeat split; try assumption.
  destruct (snd (Chord.build_chord lt ge build_scale tonic_key d q));
    [discriminate | reflexivity].
Qed.

End Build_chord_facts.

Lemma build_chord_follows_pattern_witness :
  let c4 := Sample.natural "C" 4 in
  Py.dict_get Chord._CHORD_NUM_SCALE_INDEX "V" = Some 4
  /\ Py.dict_get Chord._CHORD_PATTERNS "major" = Some [2; 4]
  /\ List.length (Sample.build_scale c4 "major") = 8%nat
  /\ exists root n1 n2 c1 c2,
       Py.getitem (Sample.build_scale c4 "major") 4 = Ok root
       /\ spec_chord_note (Sample.build_scale c4 "major") 4 2 = Ok n1
       /\ spec_chord_note (Sample.build_scale c4 "major") 4 4 = Ok n2
       /\ Sample.add_note (Chord.mk [root]) (ONote n1) = Ok c1
       /\ Sample.add_note c1 (ONote n2) = Ok c2
       /\ Sample.build_chord (ONote c4) "V" "major" = ([(c4, "major")], Ok c2)
       /\ Permutation (Chord.notes c2) [root; n1; n2].
Proof.
  intros c4.
  assert (Hd : Py.dict_get Chord._CHORD_NUM_SCALE_INDEX "V" = Some 4)
    by reflexivity.
  assert (Hq : Py.dict_get Chord._CHORD_PATTERNS "major" = Some [2; 4])
    by reflexivity.
  assert (Hlen : List.length (Sample.build_scale c4 "major") = 8%nat)
    by reflexivity.
  repeat split; try assumption.
  exact (proj2 (build_chord_follows_pattern Sample.lt Sample.ge
                  Sample.build_scale c4 "V" "major" 4 [2; 4] Hd Hq Hlen)).
Defined.

Lemma scale_reads_stay_in_bounds_witness :
  let c4 := Sample.natural "C" 4 in
  let s := Sample.build_scale c4 "major" in
  let read_idx := fst (Chord.wrap_index (Z.of_nat (List.length s)) (7 + 4)) in
  Py.dict_get Chord._CHORD_NUM_SCALE_INDEX "VIII" = Some 7
  /\ In 4 [2; 4]
  /\ 0 <= read_idx <= 7
  /\ succeeds (Py.getitem s read_idx) = true
  /\ succeeds (snd (Sample.build_chord (ONote c4) "VIII" "major")) = true.
Proof.
  intros c4 s read_idx.
  assert (Hd : Py.dict_get Chord._CHORD_NUM_SCALE_INDEX "VIII" = Some 7)
    by reflexivity.
  assert (Hq : Py.dict_get Chord._CHORD_PATTERNS "major" = Some [2; 4])
    by reflexivity.
  assert (Hin : In 4 [2; 4]) by (simpl; tauto).
  assert (Hlen : List.length (Sample.build_scale c4 "major") = 8%nat)
    by reflexivity.
  destruct (scale_reads_stay_in_bounds Sample.lt Sample.ge Sample.build_scale
              c4 "VIII" "major" 7 [2; 4] 4 Hd Hq Hin Hlen)
    as (_ & _ & Hread & _ & _ & _ & Hget & Hrun).
  repeat split; try assumption; apply Hread.
Defined.

Lemma build_chord_rejects_before_scale_witness :
  let c4 := Sample.natural "C" 4 in
  Py.dict_get Chord._CHORD_NUM_SCALE_INDEX "IX" = None
  /\ fst (Sample.build_chord (ONote c4) "IX" "major") = []
  /\ is_invalid_argument (snd (Sample.build_chord (ONote c4) "IX" "major")) = true.
Proof.
  intros c4.
  assert (Hd : Py.dict_get Chord._CHORD_NUM_SCALE_INDEX "IX" = None)
    by reflexivity.
  destruct (build_chord_rejects_before_scale Sample.lt Sample.ge
              Sample.build_scale (ONote c4) "IX" "major"
              (or_intror (or_introl Hd)))
    as (Hcalls & Herr & _).
  repeat split; assumption.
Defined.

Example build_chord_doc_examples :
  snd (Sample.build_chord (ONote (Sample.natural "C" 4)) "I" "major")
  = Ok (Chord.mk [Sample.natural "C" 4; Sample.natural "E" 4; Sample.natural "G" 4])
  /\ Sample.build_chord (OStr "C4") "I" "major"
     = ([], Raise (TypeError "Expected Note for tonic key, got 'C4'"))
  /\ Sample.build_chord (ONote (Sample.natural "C" 4)) "I" "dorian"
     = ([], Raise (ValueError "Unsupported chord type: dorian")).
Proof. repeat split; vm_compute; reflexivity. Qed.

(** * Further properties of interval.py *)

Local Open Scope string_scope.
Local Open Scope Z_scope.

Section Integer_text.

Lemma dot_is_no_digit :
  Py.is_space "." = false /\ Ascii.eqb "." "_" = false /\ Py.digit_of "." = None.
Proof. repeat split. Qed.

Lemma all_space_no_dot (s : string) :
  Py.all_space s = true -> Py.contains "." s = false.
Proof.
  induction s as [| c r IH]; [reflexivity |].
  cbn [Py.all_space Py.contains].
  destruct (Ascii.eqb "." c) eqn:E.
  - apply Ascii.eqb_eq in E. subst c.
    rewrite (proj1 dot_is_no_digit). discriminate.
  - destruct (Py.is_space c); [exact IH | discriminate].
Qed.

Lemma int_digits_no_dot (s : string) (b : bool) (u : uint) :
  Py.int_digits s b = Some u -> Py.contains "." s = false.
Proof.
  revert b u. induction s as [| c r IH]; intros b u; [reflexivity |].
  cbn [Py.int_digits Py.contains].
  destruct (Ascii.eqb "." c) eqn:E.
  - apply Ascii.eqb_eq in E. subst c.
    destruct dot_is_no_digit as (-> & -> & ->). discriminate.
  - cbn [orb]. destruct (Py.is_space c).
    + destruct b; cbn [andb]; [| discriminate].
      destruct (Py.all_space r) eqn:Hs; [| discriminate].
      intros _. apply all_space_no_dot. exact Hs.
    + destruct (Ascii.eqb c "_").
      * destruct b; [apply IH | discriminate].
      * destruct (Py.digit_of c); [| discriminate].
        destruct (Py.int_digits r true) eqn:Hr; [| discriminate].
        intros _. exact (IH true _ Hr).
Qed.

Lemma lstrip_no_dot (s : string) :
  Py.contains "." (Py.lstrip s) = false -> Py.contains "." s = false.
Proof.
  induction s as [| c r IH]; [reflexivity |].
  cbn [Py.lstrip].
  destruct (Py.is_space c) eqn:Hc; [| exact (fun H => H)].
  intros H. cbn [Py.contains].
  destruct (Ascii.eqb "." c) eqn:E; [| exact (IH H)].
  apply Ascii.eqb_eq in E. subst c.
  rewrite (proj1 dot_is_no_digit) in Hc. discriminate.
Qed.

(** The three shapes of a literal read by [int]. *)
Lemma int_of_str_cases (s : string) :
  Py.int_of_str s
  = match Py.lstrip s with
    | String c r =>
        if Ascii.eqb c "-" then
          option_map (fun u => - Z.of_uint u) (Py.int_digits r false)
        else if Ascii.eqb c "+" then
          option_map Z.of_uint (Py.int_digits r false)
        else option_map Z.of_uint (Py.int_digits (String c r) false)
    | EmptyString => None
    end.
Proof.
  unfold Py.int_of_str. destruct (Py.lstrip s) as [| c r]; [reflexivity |].
  destruct c as [[] [] [] [] [] [] [] []]; reflexivity.
Qed.

(** A string that [int] reads has no decimal point. *)
Lemma int_of_str_no_dot (s : string) (n : Z) :
  Py.int_of_str s = Some n -> Py.contains "." s = false.
Proof.
  rewrite int_of_str_cases. intros H. apply lstrip_no_dot.
  destruct (Py.lstrip s) as [| c r]; [reflexivity |].
  destruct (Ascii.eqb c "-") eqn:Em.
  - apply Ascii.eqb_eq in Em. subst c.
    destruct (Py.int_digits r false) eqn:Hd; [| discriminate].
    cbn [Py.contains]. change (Ascii.eqb "." "-") with false.
    exact (int_digits_no_dot _ _ _ Hd).
  - destruct (Ascii.eqb c "+") eqn:Ep.
    + apply Ascii.eqb_eq in Ep. subst c.
      destruct (Py.int_digits r false) eqn:Hd; [| discriminate].
      cbn [Py.contains]. change (Ascii.eqb "." "+") with false.
      exact (int_digits_no_dot _ _ _ Hd).
    + destruct (Py.int_digits (String c r) false) eqn:Hd; [| discriminate].
      exact (int_digits_no_dot _ _ _ Hd).
Qed.

Lemma int_no_dot (v : Py.val) (n : Z) :
  Py.int v = Some n -> Py.contains "." (Py.str v) = false.
Proof.
  destruct v as [z | s]; simpl.
  - intros _. apply contains_dot_str_of_int.
  - apply int_of_str_no_dot.
Qed.

(** [int(str(z)) == z] for every integer. *)
Lemma int_of_str_str_of_int_all (z : Z) :
  Py.int_of_str (Py.str_of_int z) = Some z.
Proof.
  destruct z as [| p | p].
  - reflexivity.
  - apply int_of_str_str_of_int. lia.
  - unfold Py.str_of_int. simpl.
    pose proof (Unsigned.to_uint_nonnil p) as Hn.
    assert (Hs : NilZero.string_of_uint (Pos.to_uint p)
                 = NilEmpty.string_of_uint (Pos.to_uint p))
      by (destruct (Pos.to_uint p); [congruence | reflexivity ..]).
    rewrite Hs. unfold Py.int_of_str. simpl.
    assert (Hd : Py.int_digits (NilEmpty.string_of_uint (Pos.to_uint p)) false
                 = Some (Pos.to_uint p)).
    { destruct (Pos.to_uint p); try congruence;
        simpl; rewrite int_digits_uint; reflexivity. }
    rewrite Hd. simpl. unfold Z.of_uint.
    rewrite DecimalPos.Unsigned.of_to. reflexivity.
Qed.

Lemma remove_from_str_of_int (q : string) (z : Z) :
  In q Interval.NAMED_INTERVAL_TYPES ->
  Py.remove_from q (Py.str_of_int z) 0 = Py.str_of_int z.
Proof.
  intros Hq. unfold Py.str_of_int.
  assert (Hu : forall u, Py.remove_from q (NilZero.string_of_uint u) 0
                         = NilZero.string_of_uint u).
  { intros u. destruct u; try apply (remove_from_uint q _ Hq).
    simpl in Hq. simpl.
    repeat (destruct Hq as [<- | Hq]; [reflexivity |]). contradiction. }
  destruct (Z.to_int z) as [u | u]; simpl NilZero.string_of_int.
  - apply Hu.
  - pose proof (Hu u) as Hu'. simpl in Hq.
    repeat (destruct Hq as [<- | Hq]; [simpl; rewrite Hu'; reflexivity |]).
    contradiction.
Qed.

End Integer_text.

Section Constructor_facts.

Import Interval.

Lemma checked_size (n : Z) :
  0 < n -> (if n >=? 8 then compound_base_size n else n) = spec_base_size n.
Proof.
  intros Hn. destruct (Z.geb_spec n 8) as [Hge | Hlt].
  - apply compound_base_size_mod. lia.
  - unfold spec_base_size. rewrite Z.mod_small by lia. lia.
Qed.

Lemma str_in_named (q : string) :
  Py.str_in q NAMED_INTERVAL_TYPES = true <-> In q NAMED_INTERVAL_TYPES.
Proof.
  split; [| apply named_str_in].
  unfold Py.str_in. intros H. apply existsb_exists in H.
  destruct H as [x [Hx Hq]]. apply String.eqb_eq in Hq. subst x. exact Hx.
Qed.

(** The constructor on a named quality and a size that reads as a
    positive integer: only the table lookup is left. *)
Lemma init_named (q : string) (v : Py.val) (n : Z) :
  In q NAMED_INTERVAL_TYPES -> Py.int v = Some n -> 0 < n ->
  __init__ q v =
    if Py.str_in
         (q ++ (if n >=? 8 then Py.str_of_int (compound_base_size n)
                else Py.str v))
         VALID_INTERVAL_TYPES
    then Ok (mk q n)
    else Raise (ValueError ("Impossible interval type specified: "
                            ++ q ++ Py.str v)).
Proof.
  intros Hq Hv Hn. unfold __init__.
  rewrite named_str_in by assumption. cbn [negb].
  rewrite Hv, (int_no_dot v n Hv).
  destruct (Z.leb_spec n 0); [lia |].
  destruct (n >=? 8); cbv zeta;
    match goal with |- context [Py.str_in ?s ?l] => destruct (Py.str_in s l) end;
    reflexivity.
Qed.

(** A size given as text and found in the table below 8 is the one
    digit of its value. *)
Lemma small_text_canonical (q s : string) (n : Z) :
  In q NAMED_INTERVAL_TYPES -> Py.int_of_str s = Some n ->
  Py.str_in (q ++ s) VALID_INTERVAL_TYPES = true ->
  s = Py.str_of_int n.
Proof.
  intros Hq Hn Hv. unfold Py.str_in in Hv. apply existsb_exists in Hv.
  destruct Hv as [x [Hx Heq]]. apply String.eqb_eq in Heq. subst x.
  simpl in Hq.
  repeat (destruct Hq as [<- | Hq];
          [simpl in Hx;
           repeat (destruct Hx as [Hx | Hx];
                   [try discriminate Hx; injection Hx as <-;
                    vm_compute in Hn; injection Hn as <-; reflexivity |]);
           contradiction |]).
  contradiction.
Qed.

End Constructor_facts.

(** When the constructor accepts an integer size. *)
Lemma init_int_iff (q : string) (n : Z) (i : Interval.t) :
  Interval.__init__ q (Py.Int n) = Ok i
  <-> spec_valid q n /\ i = Interval.mk q n.
Proof.
  split.
  - intros Hi. destruct (init_ok_fields q (Py.Int n) i Hi)
      as (m & Hm & Hpos & -> & Hq).
    injection Hm as <-. split; [| reflexivity].
    rewrite init_int in Hi by assumption.
    rewrite checked_size in Hi by assumption.
    repeat split; try assumption.
    destruct (Py.str_in _ Interval.VALID_INTERVAL_TYPES);
      [reflexivity | discriminate].
  - intros [Hv ->]. apply init_spec_valid. exact Hv.
Qed.

(** X1: with an integer size the constructor returns an interval exactly
    when the quality is named, the size is positive and the quality with
    the base size ((size - 1) mod 7) + 1 is in the table; the interval
    then carries the quality and the size as given. *)
Theorem integer_size_accepted_iff (q : string) (n : Z) (i : Interval.t) :
  Interval.__init__ q (Py.Int n) = Ok i
  <-> spec_valid q n /\ i = Interval.mk q n.
Proof. exact (init_int_iff q n i). Qed.

(** X2: adding an octave (7) to a positive integer size neither makes a
    valid interval invalid nor an invalid one valid. *)
Theorem octave_keeps_validity (q : string) (n : Z) :
  0 < n ->
  succeeds (Interval.__init__ q (Py.Int (n + 7)))
  = succeeds (Interval.__init__ q (Py.Int n)).
Proof.
  intros Hn.
  destruct (Py.str_in q Interval.NAMED_INTERVAL_TYPES) eqn:Hq.
  - apply str_in_named in Hq.
    rewrite !init_int, !checked_size by (assumption || lia).
    assert (Hb : spec_base_size (n + 7) = spec_base_size n).
    { unfold spec_base_size.
      replace (n + 7 - 1) with (n - 1 + 1 * 7) by lia.
      rewrite Z.mod_add by lia. reflexivity. }
    rewrite Hb.
    destruct (Py.str_in _ Interval.VALID_INTERVAL_TYPES); reflexivity.
  - unfold Interval.__init__. rewrite Hq. reflexivity.
Qed.

Lemma octave_keeps_validity_witness :
  0 < 6
  /\ succeeds (Interval.__init__ "dim" (Py.Int (6 + 7)))
     = succeeds (Interval.__init__ "dim" (Py.Int 6)).
Proof. split; [lia | apply (octave_keeps_validity "dim" 6); lia]. Defined.

(** X3: which qualities go with which sizes, for a positive integer
    size of base b = ((size - 1) mod 7) + 1: perfect exactly for b in
    1, 4, 5; major and minor exactly for b in 2, 3, 6, 7; diminished and
    augmented for every size. *)
Theorem quality_fits_base_size (n : Z) :
  0 < n ->
  let b := spec_base_size n in
  let perfect := (b =? 1) || (b =? 4) || (b =? 5) in
  succeeds (Interval.__init__ "P" (Py.Int n)) = perfect
  /\ succeeds (Interval.__init__ "M" (Py.Int n)) = negb perfect
  /\ succeeds (Interval.__init__ "m" (Py.Int n)) = negb perfect
  /\ succeeds (Interval.__init__ "dim" (Py.Int n)) = true
  /\ succeeds (Interval.__init__ "aug" (Py.Int n)) = true.
Proof.
  intros Hn b perfect. subst perfect.
  pose proof (spec_base_size_range n) as Hb. fold b in Hb.
  rewrite !init_int, !checked_size by (simpl; tauto || assumption).
  fold b.
  assert (Hcases : b = 1 \/ b = 2 \/ b = 3 \/ b = 4 \/ b = 5 \/ b = 6 \/ b = 7)
    by lia.
  clearbody b.
  repeat (destruct Hcases as [-> | Hcases]; [repeat split |]);
    subst; repeat split.
Qed.

Lemma quality_fits_base_size_witness :
  0 < 12
  /\ succeeds (Interval.__init__ "P" (Py.Int 12)) = true
  /\ succeeds (Interval.__init__ "M" (Py.Int 12)) = false.
Proof.
  assert (Hn : 0 < 12) by lia.
  destruct (quality_fits_base_size 12 Hn) as (HP & HM & _).
  repeat split; assumption.
Defined.

(** X4: the constructor raises a TypeError exactly when the quality is
    named and the size does not read as an integer; every other failure
    is a ValueError, and it never raises anything else. *)
Theorem type_error_iff_size_unreadable (q : string) (v : Py.val) :
  ((exists msg, Interval.__init__ q v = Raise (TypeError msg))
   <-> In q Interval.NAMED_INTERVAL_TYPES /\ Py.int v = None)
  /\ (succeeds (Interval.__init__ q v)
      || is_invalid_argument (Interval.__init__ q v) = true).
Proof.
  unfold Interval.__init__.
  destruct (Py.str_in q Interval.NAMED_INTERVAL_TYPES) eqn:Hq; cbn [negb].
  - apply str_in_named in Hq.
    destruct (Py.int v) as [n |] eqn:Hv.
    + rewrite (int_no_dot v n Hv). split.
      * split; [| intros [_ H]; discriminate].
        intros [msg H]. exfalso. revert H.
        destruct (n <=? 0); [discriminate |]. cbv zeta.
        match goal with
        | |- context [Py.str_in ?s ?l] => destruct (Py.str_in s l)
        end; discriminate.
      * destruct (n <=? 0); [reflexivity |]. cbv zeta.
        match goal with
        | |- context [Py.str_in ?s ?l] => destruct (Py.str_in s l)
        end; reflexivity.
    + split; [| reflexivity].
      split; [intros _; split; [assumption | reflexivity] |].
      intros _. eexists. reflexivity.
  - split; [| reflexivity]. split.
    + intros [msg H]. discriminate.
    + intros [Hin _]. apply str_in_named in Hin. congruence.
Qed.

(** What the constructor accepted when it accepts a textual size. *)
Lemma init_text_ok (q s : string) (i : Interval.t) :
  Interval.__init__ q (Py.Str s) = Ok i ->
  exists n,
    Py.int_of_str s = Some n
    /\ Interval.__init__ q (Py.Int n) = Ok i
    /\ (n < 8 -> s = Py.str_of_int n).
Proof.
  intros Hi.
  destruct (init_ok_fields q (Py.Str s) i Hi) as (n & Hn & Hpos & -> & Hq).
  simpl in Hn. exists n. split; [exact Hn |].
  rewrite (init_named q (Py.Str s) n Hq Hn Hpos) in Hi.
  rewrite init_int by assumption.
  destruct (Z.geb_spec n 8) as [Hge | Hlt].
  - split; [| lia].
    destruct (Py.str_in _ Interval.VALID_INTERVAL_TYPES);
      [reflexivity | discriminate].
  - cbn [Py.str] in Hi.
    destruct (Py.str_in (q ++ s) Interval.VALID_INTERVAL_TYPES) eqn:Hv;
      [| discriminate].
    pose proof (small_text_canonical q s n Hq Hn Hv) as Hs.
    split; [| intros _; exact Hs].
    rewrite <- Hs, Hv. reflexivity.
Qed.

(** X5: an interval built from a size given as text is the interval
    built from the integer the text reads as; below 8 the text is
    moreover that integer's own digit. *)
Theorem text_size_builds_integer_interval (q s : string) (i : Interval.t) :
  Interval.__init__ q (Py.Str s) = Ok i ->
  exists n,
    Py.int_of_str s = Some n
    /\ Interval.__init__ q (Py.Int n) = Ok i
    /\ (n < 8 -> s = Py.str_of_int n).
Proof. exact (init_text_ok q s i). Qed.

Lemma text_size_builds_integer_interval_witness :
  Interval.__init__ "aug" (Py.Str "7") = Ok (Interval.mk "aug" 7)
  /\ Interval.__init__ "aug" (Py.Int 7) = Ok (Interval.mk "aug" 7).
Proof.
  assert (Hi : Interval.__init__ "aug" (Py.Str "7") = Ok (Interval.mk "aug" 7))
    by (vm_compute; reflexivity).
  split; [exact Hi |].
  destruct (text_size_builds_integer_interval "aug" "7" _ Hi)
    as (n & Hn & Hint & _).
  vm_compute in Hn. injection Hn as <-. exact Hint.
Defined.

(** X6: a size of 8 or more given as any text [int] reads (leading
    zeros, sign, blanks) is accepted exactly when that integer is, and
    gives the same interval. *)
Theorem compound_text_size_as_integer (q s : string) (n : Z) (i : Interval.t) :
  Py.int_of_str s = Some n -> 8 <= n ->
  (Interval.__init__ q (Py.Str s) = Ok i
   <-> Interval.__init__ q (Py.Int n) = Ok i).
Proof.
  intros Hn Hge.
  destruct (Py.str_in q Interval.NAMED_INTERVAL_TYPES) eqn:Hq.
  - apply str_in_named in Hq.
    rewrite (init_named q (Py.Str s) n Hq Hn) by lia.
    rewrite (init_named q (Py.Int n) n Hq eq_refl) by lia.
    destruct (Z.geb_spec n 8) as [_ | Hlt]; [| lia].
    destruct (Py.str_in _ Interval.VALID_INTERVAL_TYPES);
      split; intros Hok; (exact Hok || discriminate).
  - unfold Interval.__init__. rewrite Hq. cbn [negb].
    split; discriminate.
Qed.

Lemma compound_text_size_as_integer_witness :
  Py.int_of_str " +012 " = Some 12 /\ 8 <= 12
  /\ Interval.__init__ "P" (Py.Str " +012 ") = Ok (Interval.mk "P" 12).
Proof.
  assert (Hn : Py.int_of_str " +012 " = Some 12) by reflexivity.
  assert (Hge : 8 <= 12) by lia.
  split; [exact Hn | split; [exact Hge |]].
  apply (compound_text_size_as_integer "P" " +012 " 12 _ Hn Hge).
  vm_compute. reflexivity.
Defined.

Section Parser_facts.

Import Interval.

Lemma prefix_split (p s : string) :
  prefix p s = true -> exists r, s = p ++ r.
Proof.
  revert s. induction p as [| c p IH]; intros s H.
  - exists s. reflexivity.
  - destruct s as [| d s]; [discriminate |]. simpl in H.
    destruct (ascii_dec c d) as [<- | _]; [| discriminate].
    destruct (IH s H) as [r ->]. exists r. reflexivity.
Qed.

(** On a token that begins with a named type, the loop stops at that
    type: no other named type is a prefix of the token. *)
Lemma from_interval_string_prefix (q r : string) :
  In q NAMED_INTERVAL_TYPES ->
  from_interval_string (q ++ r)
  = __init__ q (Py.Str (Py.replace_with_empty (q ++ r) q)).
Proof.
  intros Hq. unfold from_interval_string, NAMED_INTERVAL_TYPES.
  simpl in Hq.
  repeat (destruct Hq as [<- | Hq];
          [cbn [from_interval_string_loop]; unfold Py.startswith;
           rewrite ?prefix_app;
           repeat match goal with
             | |- context [prefix ?p (?q ++ ?s)] =>
                 change (prefix p (q ++ s)) with false; cbv iota
             end;
           reflexivity |]).
  contradiction.
Qed.

Lemma from_interval_string_ok (s : string) (i : t) :
  from_interval_string s = Ok i ->
  exists q, In q NAMED_INTERVAL_TYPES
            /\ Py.startswith s q = true
            /\ __init__ q (Py.Str (Py.replace_with_empty s q)) = Ok i.
Proof.
  unfold from_interval_string, NAMED_INTERVAL_TYPES.
  cbn [from_interval_string_loop].
  repeat match goal with
         | |- context [Py.startswith s ?q] =>
             destruct (Py.startswith s q) eqn:?;
             [intros Hi; exists q; repeat split;
              [simpl; tauto | assumption | exact Hi] |]
         end.
  discriminate.
Qed.

End Parser_facts.

(** X7: a token that starts with a named type is parsed as that type,
    whatever the order in which the types are tried; the size handed to
    the constructor is the token with every occurrence of the type
    removed. *)
Theorem parse_uses_the_one_matching_type (s q : string) :
  In q Interval.NAMED_INTERVAL_TYPES ->
  Py.startswith s q = true ->
  Interval.from_interval_string s
  = Interval.__init__ q (Py.Str (Py.replace_with_empty s q))
  /\ forall q', In q' Interval.NAMED_INTERVAL_TYPES ->
                Py.startswith s q' = true -> q' = q.
Proof.
  intros Hq Hs. unfold Py.startswith in Hs.
  destruct (prefix_split q s Hs) as [r ->]. split.
  - apply from_interval_string_prefix. exact Hq.
  - intros q' Hq' Hs'. unfold Py.startswith in Hs'.
    simpl in Hq, Hq'.
    repeat (destruct Hq as [<- | Hq];
            [repeat (destruct Hq' as [<- | Hq'];
                     [reflexivity || (simpl in Hs'; discriminate Hs') |]);
             contradiction |]).
    contradiction.
Qed.

Lemma parse_uses_the_one_matching_type_witness :
  In "dim" Interval.NAMED_INTERVAL_TYPES
  /\ Py.startswith "dim13" "dim" = true
  /\ Interval.from_interval_string "dim13"
     = Interval.__init__ "dim" (Py.Str (Py.replace_with_empty "dim13" "dim")).
Proof.
  assert (Hq : In "dim" Interval.NAMED_INTERVAL_TYPES) by (simpl; tauto).
  assert (Hs : Py.startswith "dim13" "dim" = true) by reflexivity.
  split; [exact Hq | split; [exact Hs |]].
  exact (proj1 (parse_uses_the_one_matching_type "dim13" "dim" Hq Hs)).
Defined.

(** X8: a token that starts with none of the named types, the empty
    token included, makes the parser raise ValueError 'Invalid interval
    string' without calling the constructor. *)
Theorem parse_without_named_prefix (s : string) :
  (forall q, In q Interval.NAMED_INTERVAL_TYPES -> Py.startswith s q = false) ->
  Interval.from_interval_string s
  = Raise (ValueError ("Invalid interval string: " ++ s)).
Proof.
  intros H. unfold Interval.from_interval_string, Interval.NAMED_INTERVAL_TYPES.
  cbn [Interval.from_interval_string_loop].
  rewrite !H by (simpl; tauto). reflexivity.
Qed.

Lemma parse_without_named_prefix_witness :
  Interval.from_interval_string ""
  = Raise (ValueError "Invalid interval string: ").
Proof.
  apply (parse_without_named_prefix "").
  intros q Hq. simpl in Hq.
  repeat (destruct Hq as [<- | Hq]; [reflexivity |]). contradiction.
Defined.

(** X9: parsing a named type followed by the decimal text of any
    integer does exactly what the constructor does on that type and that
    integer: the same interval, or the same exception with the same
    message. *)
Theorem parse_of_canonical_text_is_construct (q : string) (z : Z) :
  In q Interval.NAMED_INTERVAL_TYPES ->
  Interval.from_interval_string (q ++ Py.str_of_int z)
  = Interval.__init__ q (Py.Int z).
Proof.
  intros Hq. rewrite from_interval_string_prefix by assumption.
  assert (Hr : Py.replace_with_empty (q ++ Py.str_of_int z) q
               = Py.str_of_int z).
  { pose proof (remove_from_str_of_int q z Hq) as Hrem. simpl in Hq.
    repeat (destruct Hq as [<- | Hq];
            [rewrite replace_prefix; exact Hrem |]).
    contradiction. }
  rewrite Hr. unfold Interval.__init__. cbn [Py.int Py.str].
  rewrite int_of_str_str_of_int_all. reflexivity.
Qed.

Lemma parse_of_canonical_text_is_construct_witness :
  In "m" Interval.NAMED_INTERVAL_TYPES
  /\ Interval.from_interval_string ("m" ++ Py.str_of_int (-1))
     = Interval.__init__ "m" (Py.Int (-1)).
Proof.
  assert (Hq : In "m" Interval.NAMED_INTERVAL_TYPES) by (simpl; tauto).
  split; [exact Hq | exact (parse_of_canonical_text_is_construct "m" (-1) Hq)].
Defined.

(** X10: every interval that the constructor or the parser returns
    has a named quality, a positive size and a base combination of the
    table. *)
Theorem every_interval_is_valid (i : Interval.t) (q : string) (v : Py.val)
    (s : string) :
  Interval.__init__ q v = Ok i \/ Interval.from_interval_string s = Ok i ->
  spec_valid (Interval.interval_type i) (Interval.size i).
Proof.
  assert (Hinit : forall q v, Interval.__init__ q v = Ok i ->
                    spec_valid (Interval.interval_type i) (Interval.size i)).
  { intros q' [n | t] Hi.
    - apply init_int_iff in Hi. destruct Hi as [Hv ->]. exact Hv.
    - destruct (init_text_ok q' t i Hi) as (n & _ & Hint & _).
      apply init_int_iff in Hint. destruct Hint as [Hv ->]. exact Hv. }
  intros [Hi | Hs].
  - exact (Hinit q v Hi).
  - destruct (from_interval_string_ok s i Hs) as (q' & _ & _ & Hi).
    exact (Hinit q' _ Hi).
Qed.

Lemma every_interval_is_valid_witness :
  Interval.from_interval_string "aug11" = Ok (Interval.mk "aug" 11)
  /\ spec_valid "aug" 11.
Proof.
  assert (Hs : Interval.from_interval_string "aug11" = Ok (Interval.mk "aug" 11))
    by (vm_compute; reflexivity).
  split; [exact Hs |].
  exact (every_interval_is_valid (Interval.mk "aug" 11) "" (Py.Int 0) "aug11"
           (or_intror Hs)).
Defined.

(** * Further properties of chord.py *)

Section Chord_text.

Variable note_str : Note.t -> string.

Lemma append_empty_r (s : string) : s ++ "" = s.
Proof. induction s as [| c s IH]; simpl; [| rewrite IH]; reflexivity. Qed.

Lemma append_assoc (s1 s2 s3 : string) : (s1 ++ s2) ++ s3 = s1 ++ (s2 ++ s3).
Proof. induction s1 as [| c s1 IH]; simpl; [| rewrite IH]; reflexivity. Qed.

Lemma drop_last_plus (s : string) : Py.drop_last (s ++ "+") = s.
Proof.
  induction s as [| c s IH]; [reflexivity |].
  destruct s as [| d s]; [reflexivity |].
  change (Py.drop_last (String c (String d s) ++ "+"))
    with (String c (Py.drop_last (String d s ++ "+"))).
  rewrite IH. reflexivity.
Qed.

Lemma join_loop_acc (l : list Note.t) (acc : string) :
  fold_left (fun out n => out ++ (note_str n ++ "+")) l acc
  = acc ++ fold_left (fun out n => out ++ (note_str n ++ "+")) l "".
Proof.
  revert acc. induction l as [| n l IH]; intros acc; simpl.
  - symmetry. apply append_empty_r.
  - rewrite IH, (IH (note_str n ++ "+")), append_assoc. reflexivity.
Qed.

Lemma join_loop (n : Note.t) (l : list Note.t) :
  fold_left (fun out m => out ++ (note_str m ++ "+")) (n :: l) ""
  = String.concat "+" (map note_str (n :: l)) ++ "+".
Proof.
  revert n. induction l as [| m l IH]; intros n.
  - reflexivity.
  - change (fold_left (fun out m => out ++ (note_str m ++ "+")) (n :: m :: l) "")
      with (fold_left (fun out m => out ++ (note_str m ++ "+")) (m :: l)
              (note_str n ++ "+")).
    rewrite join_loop_acc, (IH m).
    change (String.concat "+" (map note_str (n :: m :: l)))
      with (note_str n ++ "+" ++ String.concat "+" (map note_str (m :: l))).
    rewrite !append_assoc. reflexivity.
Qed.

(** X11: the text of a chord is the texts of its notes joined by [+],
    in the order of [notes]: no [+] is left at either end, and a chord
    without notes has the empty text. *)
Theorem chord_text_is_joined_notes (self : Chord.t) :
  Chord.__str__ note_str self
  = String.concat "+" (map note_str (Chord.notes self)).
Proof.
  unfold Chord.__str__. destruct (Chord.notes self) as [| n l].
  - reflexivity.
  - rewrite join_loop. apply drop_last_plus.
Qed.

End Chord_text.

Local Open Scope list_scope.

Section Add_note_more.

Variables lt ge : Note.t -> Note.t -> bool.

Lemma root_cons (c : Chord.t) (r : Note.t) :
  Chord.root c = Ok r -> exists rest, c = Chord.mk (r :: rest).
Proof.
  destruct c as [[| a rest]]; unfold Chord.root; cbn [Chord.notes].
  - discriminate.
  - rewrite getitem_head. intros [= <-]. exists rest. reflexivity.
Qed.

(** X12: whatever the comparison operators do, [add_note] of a Note on
    a chord with at least one note returns a chord whose notes are a
    permutation of the old ones and the new one, so one longer; on a
    chord whose note list was emptied it raises IndexError. *)
Theorem add_note_adds_exactly_one (c : Chord.t) (n : Note.t) :
  Chord.notes c <> [] ->
  (exists c',
      Chord.add_note lt ge c (ONote n) = Ok c'
      /\ Permutation (Chord.notes c') (n :: Chord.notes c)
      /\ List.length (Chord.notes c') = S (List.length (Chord.notes c)))
  /\ Chord.add_note lt ge (Chord.mk []) (ONote n)
     = Raise (IndexError "list index out of range").
Proof.
  intros Hne. split; [| reflexivity].
  destruct (add_note_ok lt ge c n Hne) as (c' & Hc' & Hp).
  exists c'. repeat split; try assumption.
  apply Permutation_length in Hp. exact Hp.
Qed.

(** X13: after [add_note] the root is the new note when it is strictly
    below the old root, and the old root otherwise. *)
Theorem root_after_add_note (c : Chord.t) (n r : Note.t) :
  Chord.root c = Ok r ->
  exists c',
    Chord.add_note lt ge c (ONote n) = Ok c'
    /\ Chord.root c' = Ok (if lt n r then n else r).
Proof.
  intros Hr. destruct (root_cons c r Hr) as [rest ->].
  eexists. split; [apply add_note_cons |].
  unfold Chord.root. cbn [Chord.notes].
  destruct (lt n r).
  - apply getitem_head.
  - destruct (scan_insert_head lt ge n r rest) as [l' ->].
    apply getitem_head.
Qed.

End Add_note_more.

Lemma add_note_adds_exactly_one_witness :
  let g4 := Sample.natural "G" 4 in
  let e4 := Sample.natural "E" 4 in
  exists c',
    Sample.add_note (Chord.mk [g4]) (ONote e4) = Ok c'
    /\ Permutation (Chord.notes c') [e4; g4]
    /\ List.length (Chord.notes c') = 2%nat.
Proof.
  intros g4 e4.
  assert (Hne : Chord.notes (Chord.mk [g4]) <> []) by discriminate.
  exact (proj1 (add_note_adds_exactly_one Sample.lt Sample.ge
                  (Chord.mk [g4]) e4 Hne)).
Defined.

Lemma root_after_add_note_witness :
  let e4 := Sample.natural "E" 4 in
  let d4 := Sample.natural "D" 4 in
  Chord.root (Chord.mk [e4]) = Ok e4
  /\ exists c',
       Sample.add_note (Chord.mk [e4]) (ONote d4) = Ok c'
       /\ Chord.root c' = Ok d4.
Proof.
  intros e4 d4.
  assert (Hr : Chord.root (Chord.mk [e4]) = Ok e4) by reflexivity.
  split; [exact Hr |].
  exact (root_after_add_note Sample.lt Sample.ge (Chord.mk [e4]) d4 e4 Hr).
Defined.

Section Ordered_more.

Variables lt ge : Note.t -> Note.t -> bool.
Variable build_scale : Note.t -> string -> list Note.t.

Hypothesis ge_lt : forall a b, ge a b = negb (lt a b).
Hypothesis lt_irrefl : forall a, lt a a = false.
Hypothesis lt_trans :
  forall a b c, lt a b = true -> lt b c = true -> lt a c = true.
Hypothesis le_trans :
  forall a b c, Pitch.le lt a b -> Pitch.le lt b c -> Pitch.le lt a c.

Lemma chord_inv_singleton (n : Note.t) : Pitch.chord_inv lt (Chord.mk [n]).
Proof.
  apply (chord_inv_of_sorted lt lt_irrefl le_trans). repeat constructor.
Qed.

Lemma add_note_keeps_inv (c : Chord.t) (n : Note.t) :
  Pitch.chord_inv lt c ->
  exists c',
    Chord.add_note lt ge c (ONote n) = Ok c'
    /\ Permutation (Chord.notes c') (n :: Chord.notes c)
    /\ Pitch.chord_inv lt c'.
Proof.
  intros (Hne & Hs & _).
  destruct c as [[| r rest]]; [contradiction |].
  cbn [Chord.notes] in Hs. unfold Pitch.non_decreasing in Hs.
  pose proof (add_note_cons lt ge r rest n) as Hadd.
  pose proof (add_note_sorted lt ge ge_lt lt_irrefl lt_trans r rest n Hs) as Hs'.
  eexists. split; [exact Hadd |]. split.
  - exact (add_note_perm lt ge _ _ n Hadd).
  - destruct (lt n r).
    + apply (chord_inv_of_sorted lt lt_irrefl le_trans). exact Hs'.
    + destruct (scan_insert_head lt ge n r rest) as [l' Hl'].
      rewrite Hl' in Hs' |- *.
      apply (chord_inv_of_sorted lt lt_irrefl le_trans). exact Hs'.
Qed.

(** X14: for tokens of the tables and a scale of 8 notes, over a total
    order by pitch, the chord [build_chord] returns has exactly three
    notes, in non-decreasing pitch order, with a lowest one as root,
    whatever the order of the notes in the scale. *)
Theorem build_chord_returns_ordered_triad (t : Note.t) (d q : string)
    (root_index : Z) (pattern : list Z) :
  Py.dict_get Chord._CHORD_NUM_SCALE_INDEX d = Some root_index ->
  Py.dict_get Chord._CHORD_PATTERNS q = Some pattern ->
  List.length (build_scale t q) = 8%nat ->
  exists c,
    snd (Chord.build_chord lt ge build_scale (ONote t) d q) = Ok c
    /\ List.length (Chord.notes c) = 3%nat
    /\ Pitch.chord_inv lt c.
Proof.
  intros Hd Hq Hlen.
  destruct (build_chord_run lt ge build_scale t d q root_index pattern Hd Hq Hlen)
    as (_ & root & n1 & n2 & c1 & c2 & _ & _ & _ & Hc1 & Hc2 & Hrun & Hp).
  exists c2. rewrite Hrun. split; [reflexivity |]. split.
  - apply Permutation_length in Hp. exact Hp.
  - destruct (add_note_keeps_inv (Chord.mk [root]) n1 (chord_inv_singleton root))
      as (c1' & Hc1' & _ & Hinv1).
    rewrite Hc1 in Hc1'. injection Hc1' as <-.
    destruct (add_note_keeps_inv c1 n2 Hinv1) as (c2' & Hc2' & _ & Hinv2).
    rewrite Hc2 in Hc2'. injection Hc2' as <-. exact Hinv2.
Qed.

(** X15: starting from [Chord(n0)] and adding any notes one after
    another, over a total order by pitch, no call raises and the chord
    ends with all the notes given, in non-decreasing pitch order with a
    lowest one as root. *)
Theorem adding_notes_sorts_them (n0 : Note.t) (new_notes : list Note.t) :
  exists c0 c,
    Chord.__init__ (ONote n0) = Ok c0
    /\ Pitch.add_notes lt ge c0 new_notes = Ok c
    /\ Permutation (Chord.notes c) (n0 :: new_notes)
    /\ Pitch.chord_inv lt c.
Proof.
  assert (Hgen : forall ns c0, Pitch.chord_inv lt c0 ->
            exists c, Pitch.add_notes lt ge c0 ns = Ok c
                      /\ Permutation (Chord.notes c) (Chord.notes c0 ++ ns)
                      /\ Pitch.chord_inv lt c).
  { induction ns as [| n ns IH]; intros c0 Hinv.
    - exists c0. rewrite app_nil_r.
      split; [reflexivity | split; [reflexivity | exact Hinv]].
    - destruct (add_note_keeps_inv c0 n Hinv) as (c1 & Hc1 & Hp1 & Hinv1).
      destruct (IH c1 Hinv1) as (c & Hc & Hp & Hinvc).
      exists c. cbn [Pitch.add_notes]. rewrite Hc1. cbn [bind].
      split; [exact Hc | split; [| exact Hinvc]].
      rewrite Hp, Hp1. simpl. apply Permutation_middle. }
  destruct (Hgen new_notes (Chord.mk [n0]) (chord_inv_singleton n0))
    as (c & Hc & Hp & Hinv).
  exists (Chord.mk [n0]), c.
  split; [reflexivity | split; [exact Hc | split; [exact Hp | exact Hinv]]].
Qed.

End Ordered_more.

Section Short_scale.

Variables lt ge : Note.t -> Note.t -> bool.
Variable build_scale : Note.t -> string -> list Note.t.

(** X16: when the scale handed back by [Scale.build_scale] has no note
    at the degree's index, [build_chord] asks for the scale once and
    then raises IndexError, which is neither a TypeError nor a
    ValueError. *)
Theorem build_chord_scale_too_short (t : Note.t) (d q : string)
    (root_index : Z) (pattern : list Z) :
  Py.dict_get Chord._CHORD_NUM_SCALE_INDEX d = Some root_index ->
  Py.dict_get Chord._CHORD_PATTERNS q = Some pattern ->
  Z.of_nat (List.length (build_scale t q)) <= root_index ->
  Chord.build_chord lt ge build_scale (ONote t) d q
  = ([(t, q)], Raise (IndexError "list index out of range"))
  /\ is_invalid_argument
       (snd (Chord.build_chord lt ge build_scale (ONote t) d q)) = false.
Proof.
  intros Hd Hq Hlen.
  assert (Hget : Py.getitem (build_scale t q) root_index
                 = Raise (IndexError "list index out of range")).
  { unfold Py.getitem.
    destruct (Z.ltb_spec root_index 0); [lia |].
    destruct (Z.ltb_spec root_index (Z.of_nat (List.length (build_scale t q))));
      [lia |].
    rewrite andb_false_r. reflexivity. }
  unfold Chord.build_chord. rewrite Hd, Hq. cbv zeta. rewrite Hget.
  split; reflexivity.
Qed.

End Short_scale.

Lemma build_chord_returns_ordered_triad_witness :
  let c4 := Sample.natural "C" 4 in
  exists c,
    snd (Sample.build_chord (ONote c4) "V" "major") = Ok c
    /\ List.length (Chord.notes c) = 3%nat
    /\ Pitch.chord_inv Sample.lt c.
Proof.
  intros c4.
  exact (build_chord_returns_ordered_triad Sample.lt Sample.ge
           Sample.build_scale Sample_order.ge_lt Sample_order.lt_irrefl
           Sample_order.lt_trans Sample_order.le_trans
           c4 "V" "major" 4 [2; 4] eq_refl eq_refl eq_refl).
Defined.

Lemma adding_notes_sorts_them_witness :
  let g4 := Sample.natural "G" 4 in
  let e4 := Sample.natural "E" 4 in
  let d4 := Sample.natural "D" 4 in
  exists c0 c,
    Chord.__init__ (ONote g4) = Ok c0
    /\ Pitch.add_notes Sample.lt Sample.ge c0 [e4; d4] = Ok c
    /\ Permutation (Chord.notes c) [g4; e4; d4]
    /\ Pitch.chord_inv Sample.lt c.
Proof.
  intros g4 e4 d4.
  exact (adding_notes_sorts_them Sample.lt Sample.ge
           Sample_order.ge_lt Sample_order.lt_irrefl
           Sample_order.lt_trans Sample_order.le_trans g4 [e4; d4]).
Defined.

Lemma build_chord_scale_too_short_witness :
  let c4 := Sample.natural "C" 4 in
  let seven_notes (tonic : Note.t) (scale_type : string) :=
    firstn 7 Sample.c_major in
  Chord.build_chord Sample.lt Sample.ge seven_notes (ONote c4) "VIII" "major"
  = ([(c4, "major")], Raise (IndexError "list index out of range")).
Proof.
  intros c4 seven_notes.
  assert (Hlen : Z.of_nat (List.length (seven_notes c4 "major")) <= 7)
    by (vm_compute; discriminate).
  exact (proj1 (build_chord_scale_too_short Sample.lt Sample.ge seven_notes
                  c4 "VIII" "major" 7 [2; 4] eq_refl eq_refl Hlen)).
Defined.

Example module_constants_load :
  Interval._TONE = Ok (Interval.mk "M" 2)
  /\ Interval._SEMITONE = Ok (Interval.mk "m" 2)
  /\ Interval._TONE_AND_HALF = Ok (Interval.mk "aug" 2).
Proof. repeat split; vm_compute; reflexivity. Qed.

Example chord_doc_text :
  option_map (Chord.__str__ Sample.note_str)
    (match Sample.build_chord (ONote (Sample.natural "C" 4)) "V" "major" with
     | (_, Ok c) => Some c
     | _ => None
     end)
  = Some "G4+B4+D5".
Proof. vm_compute. reflexivity. Qed.
